(** * SystemMonitor: the sampling, rolling-window and ranking core of main.py

    A shallow embedding of [SystemMonitorApp] (src/main.py).  The widget
    toolkit, the plots and the theme are left out; what is kept is the state
    the timer callback reads and writes (the two history arrays, the label
    texts, the cached CPU and GPU names) and the calls it makes to the
    metrics library, whose answers are the fields of an environment record.

    A Python float is the rational it denotes ([Q]); a division rounds its
    exact quotient to the nearest binary64 value ([round64]).  Exceptions
    are values of [exn]; a computation that may raise returns a [result].

    The attributes psutil prefetches may be [None], and so may the core
    count.  The records [process] and [metrics] describe the answers in
    which they are present; [Raw.process] and [Raw.metrics] describe all
    answers, and the functions of [Raw] agree with the ones outside it on
    the answers both describe ([top_processes_to_raw],
    [update_system_info_to_raw]). *)

From Stdlib Require Import Ascii QArith Qround Qabs Qpower Lqa.
From stdpp Require Import base list strings pretty sorting.

Local Open Scope string_scope.
Local Open Scope list_scope.
Local Open Scope nat_scope.

(** ** Exceptions and the result monad *)

Module Py.

(** The exception classes that the program names or that its calls raise. *)
Inductive exn : Type :=
  | BaseException
  | ImportError
  | ModuleNotFoundError
  | OSError
  | FileNotFoundError
  | PermissionError
  | CalledProcessError
  | IndexError
  | ValueError
  | TypeError
  | AttributeError
  | ZeroDivisionError
  | NoSuchProcess
  | AccessDenied.

Global Instance exn_eq_dec : EqDecision exn.
Proof. solve_decision. Defined.

(** The direct base class of each exception class (Python's hierarchy, cut
    at [BaseException]; the classes between, [Exception] and
    [SubprocessError], are not named by the program). *)
Definition base_class (e : exn) : option exn :=
  match e with
  | BaseException => None
  | ModuleNotFoundError => Some ImportError
  | FileNotFoundError => Some OSError
  | PermissionError => Some OSError
  | _ => Some BaseException
  end.

(** [except C] catches an exception of class [e] when [e] is [C] or derives
    from it. *)
Fixpoint mro (depth : nat) (e : exn) : list exn :=
  e :: match depth, base_class e with
       | S d, Some b => mro d b
       | _, _ => []
       end.

Definition issubclass (e c : exn) : bool := bool_decide (c ∈ mro 3 e).

Inductive result (A : Type) : Type :=
  | Ok (a : A)
  | Raise (e : exn).
Global Arguments Ok {A} a.
Global Arguments Raise {A} e.

Definition bind {A B} (m : result A) (k : A → result B) : result B :=
  match m with
  | Ok a => k a
  | Raise e => Raise e
  end.

(** [try: body except C: handler] *)
Definition try_except {A} (body : result A) (c : exn) (handler : result A)
  : result A :=
  match body with
  | Ok a => Ok a
  | Raise e => if issubclass e c then handler else Raise e
  end.

Definition is_ok {A} (m : result A) : bool :=
  match m with Ok _ => true | Raise _ => false end.

(** Sequencing is written [x ← m; k], as for the other monads. *)
Global Instance result_ret : MRet result := λ A a, Ok a.
Global Instance result_bind : MBind result := λ A B k m, bind m k.

End Py.

Import Py.

(** ** numpy arrays of samples *)

Module Np.
Section array.
Context {A : Type}.

(** [np.roll(a, shift)] on a one-dimensional array: the element at index
    [i] moves to index [(i + shift) mod len(a)]. *)
Definition roll (a : list A) (shift : Z) : list A :=
  rotate (Z.to_nat ((- shift) `mod` Z.of_nat (length a))) a.

(** [a[i] = v] with Python's indexing: a negative index counts from the
    end, an index outside [-len(a), len(a)) raises [IndexError]. *)
Definition setitem (a : list A) (i : Z) (v : A) : result (list A) :=
  let n := Z.of_nat (length a) in
  if bool_decide (0 ≤ i < n)%Z then Ok (<[Z.to_nat i := v]> a)
  else if bool_decide (- n ≤ i < 0)%Z then Ok (<[Z.to_nat (i + n) := v]> a)
  else Raise IndexError.
End array.

(** [np.zeros(n)] *)
Definition zeros (n : nat) : list Q := replicate n 0%Q.
End Np.

(** ** The rolling window (update_system_info, lines 86-90) *)

(** [h = np.roll(h, -1); h[-1] = value] *)
Definition push (window : list Q) (value : Q) : result (list Q) :=
  Np.setitem (Np.roll window (-1)) (-1) value.

(** One [push] per tick, in order. *)
Fixpoint push_all (window : list Q) (values : list Q) : result (list Q) :=
  match values with
  | [] => Ok window
  | v :: vs => w ← push window v; push_all w vs
  end.

(** ** Python's [sorted] and the top-k ranker *)

Definition Qltb (x y : Q) : bool := negb (Qle_bool y x).

Section sorted.
Context {A : Type} (key : A → Q).

(** [list.sort] compares keys with [<] only and is stable.  Inserting [x]
    in front of an ascending list moves it past the strictly smaller keys
    and no further. *)
Fixpoint insert_asc (x : A) (l : list A) : list A :=
  match l with
  | [] => [x]
  | y :: l' => if Qltb (key y) (key x) then y :: insert_asc x l'
               else x :: y :: l'
  end.

Definition sort_asc (l : list A) : list A := foldr insert_asc [] l.

(** [sorted(l, key=key, reverse=reverse)]: with [reverse=True] the list is
    reversed, sorted ascending and reversed again, which keeps entries of
    equal key in their original order. *)
Definition sorted (l : list A) (reverse_flag : bool) : list A :=
  if reverse_flag then reverse (sort_asc (reverse l)) else sort_asc l.

(** [sorted(snapshot, key=key, reverse=True)[:k]] *)
Definition rank (snapshot : list A) (k : nat) : list A :=
  take k (sorted snapshot true).
End sorted.

(** ** Binary64 arithmetic *)

(** Rounding to the nearest integer, ties to even: what the [.2f]
    conversion applies to the value scaled by 100. *)
Definition round_half_even (q : Q) : Z :=
  let f := Qfloor q in
  match (q - inject_Z f ?= 1 # 2)%Q with
  | Lt => f
  | Gt => (f + 1)%Z
  | Eq => if Z.even f then f else (f + 1)%Z
  end.

(** [floor(log2(a))] for a rational [a > 0]. *)
Definition ilog2 (a : Q) : Z :=
  let k := (Z.log2 (Qnum a) - Z.log2 (Z.pos (Qden a)))%Z in
  if Qle_bool (2 ^ k) a then k else (k - 1)%Z.

(** The exponent of the last place of the binary64 values around [a > 0]:
    53 significant bits, the smallest normal exponent being -1022. *)
Definition ulp_exp (a : Q) : Z := (Z.max (ilog2 a) (-1022) - 52)%Z.

Definition round64_pos (a : Q) : Q :=
  (inject_Z (round_half_even (a / 2 ^ ulp_exp a)) * 2 ^ ulp_exp a)%Q.

(** The binary64 value nearest to [q], ties to even.  The largest finite
    value is not modelled: a quotient of a float by an integer other than
    zero never exceeds it. *)
Definition round64 (q : Q) : Q :=
  match (q ?= 0)%Q with
  | Gt => round64_pos q
  | Lt => (- round64_pos (- q))%Q
  | Eq => 0%Q
  end.

(** [a / b] for two ints, [b] not zero. *)
Definition int_truediv (a b : Z) : Q := round64 (inject_Z a / inject_Z b).

(** ** Process snapshots *)

(** What [psutil.process_iter(attrs=[...])] yields for a process whose
    prefetched name and CPU percent are present: the [info] dictionary and
    the later call [memory_info()], which may raise (the process may have
    gone, or access may be denied).  [Raw.process] has the case of an
    attribute that is [None]. *)
Record process : Type := {
  info_name : string;
  info_cpu_percent : Q;
  memory_info_rss : result Z
}.

(** The tuples [(name, cpu, memory)] of [processes]. *)
Definition entry : Type := string * Q * Q.

Definition entry_name (x : entry) : string := x.1.1.
Definition entry_cpu (x : entry) : Q := x.1.2.        (* x[1] *)
Definition entry_memory (x : entry) : Q := x.2.       (* x[2] *)

(** The answers of the metrics library during one tick, when the core
    count is known and the CPU frequency is available ([Raw.metrics] has
    the other cases). *)
Record metrics : Type := {
  cpu_percent : Q;
  virtual_memory_percent : Q;
  virtual_memory_total : Z;
  cpu_count : Z;
  process_iter : list process
}.

Definition idle_name : string := "System Idle Process".

(** [x / n] for a float [x] and an int [n]: the int becomes a float
    (without rounding, for an int below 2^53 such as a core count) and
    the quotient is rounded. *)
Definition truediv (x : Q) (n : Z) : result Q :=
  if bool_decide (n = 0%Z) then Raise ZeroDivisionError
  else Ok (round64 (x / inject_Z n)).

(** The list comprehension of lines 100-102: the condition is tested first,
    the tuple (and with it [memory_info()]) is evaluated only for the
    processes that pass; the first exception ends the comprehension. *)
Fixpoint processes_of (ps : list process) : result (list entry) :=
  match ps with
  | [] => Ok []
  | p :: ps' =>
      if bool_decide (info_name p ≠ idle_name) then
        rss ← memory_info_rss p;
        rest ← processes_of ps';
        Ok ((info_name p, info_cpu_percent p,
             int_truediv rss (1024 ^ 2)) :: rest)
      else processes_of ps'
  end.

(** [[(name, cpu / num_cores, memory) for name, cpu, memory in top]] *)
Fixpoint normalize (num_cores : Z) (top : list entry) : result (list entry) :=
  match top with
  | [] => Ok []
  | (name, cpu, memory) :: top' =>
      c ← truediv cpu num_cores;
      rest ← normalize num_cores top';
      Ok ((name, c, memory) :: rest)
  end.

(** Lines 98-107: the two ranked lists of one tick. *)
Definition top_processes (m : metrics) : result (list entry * list entry) :=
  let num_cores := cpu_count m in
  processes ← processes_of (process_iter m);
  let top_cpu_processes := rank entry_cpu processes 5 in
  top_cpu_processes ← normalize num_cores top_cpu_processes;
  let top_memory_processes := rank entry_memory processes 5 in
  Ok (top_cpu_processes, top_memory_processes).

(** ** Text of the labels *)

(** [f"{q:.2f}"] *)
Definition format_2f (q : Q) : string :=
  let scaled := round_half_even (Qabs q * 100) in
  let cents := (scaled `mod` 100)%Z in
  (if Qltb q 0 then "-" else "")
  +:+ pretty (scaled `div` 100)%Z +:+ "."
  +:+ (if bool_decide (cents < 10)%Z then "0" else "") +:+ pretty cents.

(** [f"{name}: CPU {cpu:.2f}%"] and [f"{name}: Memory {memory:.2f} MB"] *)
Definition cpu_text (x : entry) : string :=
  entry_name x +:+ ": CPU " +:+ format_2f (entry_cpu x) +:+ "%".
Definition memory_text (x : entry) : string :=
  entry_name x +:+ ": Memory " +:+ format_2f (entry_memory x) +:+ " MB".

(** The loops of lines 109-115, from index [i] on:
    [for i, x in enumerate(top):
         if i < len(labels): labels[i].setText(text x)] *)
Fixpoint show_ranked (text : entry → string) (i : nat) (top : list entry)
    (labels : list string) : list string :=
  match top with
  | [] => labels
  | x :: top' =>
      show_ranked text (S i) top'
        (if bool_decide (i < length labels) then <[i := text x]> labels
         else labels)
  end.

(** ** The application state *)

Record SystemMonitorApp : Type := App {
  cpu_usage_history : list Q;
  memory_usage_history : list Q;
  system_info_label : string;
  process_labels_cpu : list string;
  process_labels_memory : list string;
  gpu_name : string;
  cpu_name : string
}.

Definition set_cpu_usage_history (h : list Q) (s : SystemMonitorApp)
  : SystemMonitorApp :=
  App h (memory_usage_history s) (system_info_label s) (process_labels_cpu s)
      (process_labels_memory s) (gpu_name s) (cpu_name s).
Definition set_memory_usage_history (h : list Q) (s : SystemMonitorApp)
  : SystemMonitorApp :=
  App (cpu_usage_history s) h (system_info_label s) (process_labels_cpu s)
      (process_labels_memory s) (gpu_name s) (cpu_name s).
Definition set_system_info_label (t : string) (s : SystemMonitorApp)
  : SystemMonitorApp :=
  App (cpu_usage_history s) (memory_usage_history s) t (process_labels_cpu s)
      (process_labels_memory s) (gpu_name s) (cpu_name s).
Definition set_process_labels (lc lm : list string) (s : SystemMonitorApp)
  : SystemMonitorApp :=
  App (cpu_usage_history s) (memory_usage_history s) (system_info_label s)
      lc lm (gpu_name s) (cpu_name s).

(** A method of the application: it may change the fields before it
    returns or raises, so the state comes back in both cases. *)
Definition method : Type := SystemMonitorApp → SystemMonitorApp * result ().

Definition seq_method (f g : method) : method := λ s,
  match f s with
  | (s', Ok _) => g s'
  | (s', Raise e) => (s', Raise e)
  end.

(** Lines 97-115. Everything that can raise comes before the first
    [setText]. *)
Definition update_process_info (m : metrics) : method := λ s,
  match top_processes m with
  | Raise e => (s, Raise e)
  | Ok (top_cpu_processes, top_memory_processes) =>
      (set_process_labels
         (show_ranked cpu_text 0 top_cpu_processes (process_labels_cpu s))
         (show_ranked memory_text 0 top_memory_processes
            (process_labels_memory s)) s,
       Ok ())
  end.

Definition newline : string := String (Ascii.ascii_of_nat 10) "".

(** Lines 117-125 when [psutil.cpu_freq()] answers: the local [cpu_name]
    built from it is never read, and the label shows the cached names.
    [Raw.update_system_info_label] has the query and its failure. *)
Definition update_system_info_label (m : metrics) : method := λ s,
  let memory_info :=
    "Memory: "
    +:+ format_2f (int_truediv (virtual_memory_total m) (1024 ^ 3))
    +:+ " GB" in
  let cpu_info := "CPU: " +:+ cpu_name s in
  (set_system_info_label
     (cpu_info +:+ newline +:+ gpu_name s +:+ newline +:+ memory_info) s,
   Ok ()).

(** Lines 86-87 and 89-90: the rolled array is stored before the last
    element is assigned. *)
Definition push_cpu (value : Q) : method := λ s,
  let rolled := Np.roll (cpu_usage_history s) (-1) in
  match Np.setitem rolled (-1) value with
  | Ok h => (set_cpu_usage_history h s, Ok ())
  | Raise e => (set_cpu_usage_history rolled s, Raise e)
  end.
Definition push_memory (value : Q) : method := λ s,
  let rolled := Np.roll (memory_usage_history s) (-1) in
  match Np.setitem rolled (-1) value with
  | Ok h => (set_memory_usage_history h s, Ok ())
  | Raise e => (set_memory_usage_history rolled s, Raise e)
  end.

(** Lines 82-95: one tick of the timer. *)
Definition update_system_info (m : metrics) : method :=
  seq_method (push_cpu (cpu_percent m))
    (seq_method (push_memory (virtual_memory_percent m))
       (seq_method (update_system_info_label m) (update_process_info m))).

(** ** String methods used by the CPU name lookup *)

Module Str.

(** [str.isspace] on one ASCII character. *)
Definition isspace (c : ascii) : bool :=
  let n := Ascii.nat_of_ascii c in
  (9 <=? n) && (n <=? 13) || (28 <=? n) && (n <=? 32).

Fixpoint lstrip (s : string) : string :=
  match s with
  | String c s' => if isspace c then lstrip s' else s
  | EmptyString => EmptyString
  end.

Definition rstrip (s : string) : string := String.rev (lstrip (String.rev s)).

(** [s.strip()] *)
Definition strip (s : string) : string := rstrip (lstrip s).

(** [s.split(sep)] for a separator of one character. *)
Fixpoint split (sep : ascii) (s : string) : list string :=
  match s with
  | EmptyString => [EmptyString]
  | String c s' =>
      if bool_decide (c = sep) then EmptyString :: split sep s'
      else match split sep s' with
           | piece :: pieces => String c piece :: pieces
           | [] => [String c EmptyString]
           end
  end.

(** [sub in s] *)
Fixpoint contains (sub s : string) : bool :=
  String.prefix sub s
  || match s with
     | String _ s' => contains sub s'
     | EmptyString => false
     end.

End Str.

(** ** Start-up: the static system descriptor *)

(** What the host answers at start-up. *)
Record host : Type := {
  platform_system : string;
  (** [subprocess.check_output("wmic cpu get name", universal_newlines=True)] *)
  wmic_cpu_get_name : result string;
  (** [open("/proc/cpuinfo", "r")] and the lines the file then yields *)
  proc_cpuinfo : result (list string);
  (** [import GPUtil] *)
  import_GPUtil : result ();
  (** the names of [GPUtil.getGPUs()] *)
  getGPUs : result (list string)
}.

Definition unknown_cpu : string := "Unknown CPU".

(** Lines 35-40 *)
Definition cpu_name_windows (output : string) : string :=
  let lines :=
    Str.strip
    <$> filter (λ line, Str.strip line ≠ "") (Str.split "010"%char output) in
  if bool_decide (1 < length lines) then default unknown_cpu (lines !! 1)
  else unknown_cpu.

(** Lines 46-48: [Some name] when the loop returns, [None] when it ends. *)
Fixpoint cpu_name_linux (lines : list string) : result (option string) :=
  match lines with
  | [] => Ok None
  | line :: lines' =>
      if Str.contains "model name" line then
        match Str.split ":"%char line !! 1 with
        | Some field => Ok (Some (Str.strip field))
        | None => Raise IndexError
        end
      else cpu_name_linux lines'
  end.

(** Lines 32-51 *)
Definition get_cpu_name (h : host) : result string :=
  if bool_decide (platform_system h = "Windows") then
    try_except
      (output ← wmic_cpu_get_name h; Ok (cpu_name_windows output))
      CalledProcessError
      (Ok unknown_cpu)
  else if bool_decide (platform_system h = "Linux") then
    found ← try_except
              (lines ← proc_cpuinfo h; cpu_name_linux lines)
              FileNotFoundError
              (Ok (Some unknown_cpu));
    Ok (default unknown_cpu found)
  else Ok unknown_cpu.

Definition gpu_not_found : string := "GPU: Not found".
Definition gpu_not_supported : string := "GPU: not supported".

(** Lines 23-28 *)
Definition get_gpu_name (h : host) : result string :=
  try_except
    (_ ← import_GPUtil h;
     gpus ← getGPUs h;
     Ok (match gpus with name :: _ => name | [] => gpu_not_found end))
    ImportError
    (Ok gpu_not_supported).

(** Lines 72-73 of [initUI] *)
Definition initial_labels : list string := replicate 5 "-------------".

(** Lines 13-30: the fields once [__init__] has returned. *)
Definition SystemMonitorApp_init (h : host) : result SystemMonitorApp :=
  let cpu_usage_history := Np.zeros 60 in
  let memory_usage_history := Np.zeros 60 in
  gpu_name ← get_gpu_name h;
  cpu_name ← get_cpu_name h;
  Ok (App cpu_usage_history memory_usage_history "" initial_labels
          initial_labels gpu_name cpu_name).

Definition linux_host : host :=
  {| platform_system := "Linux";
     wmic_cpu_get_name := Raise FileNotFoundError;
     proc_cpuinfo := Ok ["processor : 0" +:+ newline;
                         "model name : Some CPU @ 3GHz" +:+ newline];
     import_GPUtil := Raise ModuleNotFoundError;
     getGPUs := Ok [] |}.

(** ** Vocabulary of the statements *)

Global Instance Qeq_decision (x y : Q) : Decision (x == y)%Q := Qeq_dec x y.

Section keys.
Context {A : Type} (key : A → Q).

(** Ascending and descending order of the keys. *)
Definition key_le (x y : A) : Prop := (key x <= key y)%Q.
Definition key_ge (x y : A) : Prop := (key y <= key x)%Q.

(** The entries of [l] whose key is [v], in the order of [l]. *)
Definition with_key (v : Q) (l : list A) : list A :=
  filter (λ x, key x == v)%Q l.
End keys.

(** The tuple built for a process whose [memory_info()] returned [rss]. *)
Definition entry_of (p : process) (rss : Z) : entry :=
  (info_name p, info_cpu_percent p, int_truediv rss (1024 ^ 2)).

Definition fetched (p : process) (x : entry) : Prop :=
  ∃ rss, memory_info_rss p = Ok rss ∧ x = entry_of p rss.

Definition not_idle (p : process) : Prop := info_name p ≠ idle_name.

(** What line 105 makes of an entry: [(name, cpu / num_cores, memory)]. *)
Definition normalized (num_cores : Z) (x : entry) : entry :=
  (entry_name x, round64 (entry_cpu x / inject_Z num_cores), entry_memory x).

(** ** Sample inputs *)

(** A tick on a four-core host where the idle process reports the largest
    CPU value. *)
Definition busy_tick : metrics :=
  {| cpu_percent := 37;
     virtual_memory_percent := 52;
     virtual_memory_total := 8 * 1024 ^ 3;
     cpu_count := 4;
     process_iter :=
       [ Build_process "System Idle Process" 390 (Ok 8192%Z);
         Build_process "python" 50 (Ok (300 * 1024 ^ 2)%Z);
         Build_process "chrome" 120 (Ok (900 * 1024 ^ 2)%Z) ] |}.

Definition busy_tick_processes : list entry :=
  Eval vm_compute in
  match processes_of (process_iter busy_tick) with
  | Ok processes => processes
  | Raise _ => []
  end.

Definition busy_tick_ranked : list entry * list entry :=
  Eval vm_compute in
  match top_processes busy_tick with
  | Ok lists => lists
  | Raise _ => ([], [])
  end.

(** A tick during which the second process exits before [memory_info()]
    is called on it. *)
Definition exited_tick : metrics :=
  {| cpu_percent := 12;
     virtual_memory_percent := 40;
     virtual_memory_total := 8 * 1024 ^ 3;
     cpu_count := 4;
     process_iter :=
       [ Build_process "init" 1 (Ok (4 * 1024 ^ 2)%Z);
         Build_process "gone" 10 (Raise NoSuchProcess);
         Build_process "bash" 2 (Ok (6 * 1024 ^ 2)%Z) ] |}.

(** The application right after a start on [linux_host]. *)
Definition started : SystemMonitorApp :=
  App (Np.zeros 60) (Np.zeros 60) "" initial_labels initial_labels
      "GPU: not supported" "Some CPU @ 3GHz".

(** A host where GPUtil is installed and its query fails on the output of
    the driver tool. *)
Definition broken_gpu_host : host :=
  {| platform_system := "Linux";
     wmic_cpu_get_name := Raise FileNotFoundError;
     proc_cpuinfo := Ok ["model name : Some CPU @ 3GHz" +:+ newline];
     import_GPUtil := Ok ();
     getGPUs := Raise ValueError |}.

(** A Windows host where wmic exits with a non-zero status. *)
Definition failed_wmic_host : host :=
  {| platform_system := "Windows";
     wmic_cpu_get_name := Raise CalledProcessError;
     proc_cpuinfo := Raise FileNotFoundError;
     import_GPUtil := Raise ModuleNotFoundError;
     getGPUs := Ok [] |}.

(** A Windows host on which the wmic program is not installed. *)
Definition no_wmic_host : host :=
  {| platform_system := "Windows";
     wmic_cpu_get_name := Raise FileNotFoundError;
     proc_cpuinfo := Raise FileNotFoundError;
     import_GPUtil := Raise ModuleNotFoundError;
     getGPUs := Ok [] |}.

(** A Linux host without /proc/cpuinfo, and a host of another platform. *)
Definition no_cpuinfo_host : host :=
  {| platform_system := "Linux";
     wmic_cpu_get_name := Raise FileNotFoundError;
     proc_cpuinfo := Raise FileNotFoundError;
     import_GPUtil := Raise ModuleNotFoundError;
     getGPUs := Ok [] |}.
Definition darwin_host : host :=
  {| platform_system := "Darwin";
     wmic_cpu_get_name := Raise FileNotFoundError;
     proc_cpuinfo := Raise FileNotFoundError;
     import_GPUtil := Raise ModuleNotFoundError;
     getGPUs := Ok [] |}.

(** ** The run of the timer *)

(** The timer calls [update_system_info] once per interval; each call works
    on the fields as the previous one left them.  [ticks ms s] is the state
    after the calls that received the answers [ms], in order. *)
Definition ticks (ms : list metrics) (s : SystemMonitorApp) : SystemMonitorApp :=
  foldl (λ s m, (update_system_info m s).1) s ms.

(** The sizes [__init__] and [initUI] give to the arrays and label lists. *)
Definition shaped (s : SystemMonitorApp) : Prop :=
  length (cpu_usage_history s) = 60 ∧ length (memory_usage_history s) = 60
  ∧ length (process_labels_cpu s) = 5 ∧ length (process_labels_memory s) = 5.

(** The text [update_system_info_label] writes. *)
Definition system_info_text (m : metrics) (s : SystemMonitorApp) : string :=
  ("CPU: " +:+ cpu_name s) +:+ newline +:+ gpu_name s +:+ newline
  +:+ "Memory: "
  +:+ format_2f (int_truediv (virtual_memory_total m) (1024 ^ 3))
  +:+ " GB".

(** The fields after the two pushes and the label refresh of a tick. *)
Definition sampled (m : metrics) (s : SystemMonitorApp) : SystemMonitorApp :=
  App (drop 1 (cpu_usage_history s) ++ [cpu_percent m])
      (drop 1 (memory_usage_history s) ++ [virtual_memory_percent m])
      (system_info_text m s) (process_labels_cpu s) (process_labels_memory s)
      (gpu_name s) (cpu_name s).

(** ** Vocabulary for strings *)

Definition first_char (s : string) : option ascii :=
  match s with
  | String c _ => Some c
  | EmptyString => None
  end.

Fixpoint last_char (s : string) : option ascii :=
  match s with
  | EmptyString => None
  | String c s' =>
      match s' with
      | EmptyString => Some c
      | String _ _ => last_char s'
      end
  end.

(** Neither the first nor the last character is white space. *)
Definition trimmed (s : string) : Prop :=
  (∀ c, first_char s = Some c → Str.isspace c = false)
  ∧ (∀ c, last_char s = Some c → Str.isspace c = false).

(** [sep in s] for a separator of one character. *)
Definition has_char (sep : ascii) (s : string) : bool :=
  Str.contains (String sep EmptyString) s.

(** [sep.join(pieces)] *)
Fixpoint join (sep : ascii) (pieces : list string) : string :=
  match pieces with
  | [] => EmptyString
  | piece :: pieces' =>
      match pieces' with
      | [] => piece
      | _ :: _ => piece +:+ String sep (join sep pieces')
      end
  end.

(** ** All answers of the metrics library *)

Module Raw.

(** What [psutil.process_iter(attrs=[...])] yields.  An attribute that
    cannot be read (access denied, zombie process) is [None] in [info]. *)
Record process : Type := {
  info_name : option string;
  info_cpu_percent : option Q;
  memory_info_rss : result Z
}.

(** The tuples [(name, cpu, memory)] of [processes]. *)
Definition entry : Type := option string * option Q * Q.

Definition entry_name (x : entry) : option string := x.1.1.
Definition entry_cpu (x : entry) : option Q := x.1.2.     (* x[1] *)
Definition entry_memory (x : entry) : Q := x.2.           (* x[2] *)

(** The tuples of the CPU list after line 105: the division has made
    the second component a float. *)
Definition shown_entry : Type := option string * Q * Q.

Definition shown_name (x : shown_entry) : option string := x.1.1.
Definition shown_cpu (x : shown_entry) : Q := x.1.2.
Definition shown_memory (x : shown_entry) : Q := x.2.

(** The answers of the metrics library during one tick. *)
Record metrics : Type := {
  cpu_percent : Q;
  virtual_memory_percent : Q;
  virtual_memory_total : Z;
  (** [psutil.cpu_count()], [None] when undetermined *)
  cpu_count : option Z;
  (** [hasattr(psutil, 'cpu_freq')] *)
  has_cpu_freq : bool;
  (** [psutil.cpu_freq()]: it may raise, return [None], or return a
      tuple, of which [current] is kept *)
  cpu_freq : result (option Q);
  process_iter : list process
}.

(** [a < b] between two keys: a float and [None], or two [None], do not
    compare. *)
Definition lt (a b : option Q) : result bool :=
  match a, b with
  | Some x, Some y => Ok (Qltb x y)
  | _, _ => Raise TypeError
  end.

Section sorted.
Context {A : Type} (key : A → option Q).

Fixpoint insert_asc (x : A) (l : list A) : result (list A) :=
  match l with
  | [] => Ok [x]
  | y :: l' =>
      smaller ← lt (key y) (key x);
      if smaller : bool then rest ← insert_asc x l'; Ok (y :: rest)
      else Ok (x :: y :: l')
  end.

Definition sort_asc (l : list A) : result (list A) :=
  foldr (λ x sorted_tail, tail ← sorted_tail; insert_asc x tail) (Ok []) l.

(** [sorted(l, key=key, reverse=reverse)] *)
Definition sorted (l : list A) (reverse_flag : bool) : result (list A) :=
  if reverse_flag then ascending ← sort_asc (reverse l); Ok (reverse ascending)
  else sort_asc l.

(** [sorted(snapshot, key=key, reverse=True)[:k]] *)
Definition rank (snapshot : list A) (k : nat) : result (list A) :=
  descending ← sorted snapshot true; Ok (take k descending).
End sorted.

(** [x / n]: a float by an int, or [TypeError] when either is [None]. *)
Definition truediv (x : option Q) (n : option Z) : result Q :=
  match x, n with
  | Some x, Some n => truediv x n
  | _, _ => Raise TypeError
  end.

(** The list comprehension of lines 100-102. *)
Fixpoint processes_of (ps : list process) : result (list entry) :=
  match ps with
  | [] => Ok []
  | p :: ps' =>
      if bool_decide (info_name p ≠ Some idle_name) then
        rss ← memory_info_rss p;
        rest ← processes_of ps';
        Ok ((info_name p, info_cpu_percent p,
             int_truediv rss (1024 ^ 2)) :: rest)
      else processes_of ps'
  end.

(** [[(name, cpu / num_cores, memory) for name, cpu, memory in top]] *)
Fixpoint normalize (num_cores : option Z) (top : list entry)
  : result (list shown_entry) :=
  match top with
  | [] => Ok []
  | (name, cpu, memory) :: top' =>
      c ← truediv cpu num_cores;
      rest ← normalize num_cores top';
      Ok ((name, c, memory) :: rest)
  end.

(** Lines 98-107: the two ranked lists of one tick. *)
Definition top_processes (m : metrics)
  : result (list shown_entry * list entry) :=
  let num_cores := cpu_count m in
  processes ← processes_of (process_iter m);
  top_cpu_processes ← rank entry_cpu processes 5;
  top_cpu_processes ← normalize num_cores top_cpu_processes;
  top_memory_processes ← rank (λ x, Some (entry_memory x)) processes 5;
  Ok (top_cpu_processes, top_memory_processes).

(** [f"{name}"]: a name that is [None] prints as "None". *)
Definition str_name (name : option string) : string := default "None" name.

(** [f"{n}"] for the core count. *)
Definition str_count (n : option Z) : string :=
  match n with
  | Some n => pretty n
  | None => "None"
  end.

Definition cpu_text (x : shown_entry) : string :=
  str_name (shown_name x) +:+ ": CPU " +:+ format_2f (shown_cpu x) +:+ "%".
Definition memory_text (x : entry) : string :=
  str_name (entry_name x) +:+ ": Memory " +:+ format_2f (entry_memory x)
  +:+ " MB".

(** The loops of lines 109-115, from index [i] on. *)
Fixpoint show_ranked {A : Type} (text : A → string) (i : nat) (top : list A)
    (labels : list string) : list string :=
  match top with
  | [] => labels
  | x :: top' =>
      show_ranked text (S i) top'
        (if bool_decide (i < length labels) then <[i := text x]> labels
         else labels)
  end.

(** Lines 97-115 *)
Definition update_process_info (m : metrics) : method := λ s,
  match top_processes m with
  | Raise e => (s, Raise e)
  | Ok (top_cpu_processes, top_memory_processes) =>
      (set_process_labels
         (show_ranked cpu_text 0 top_cpu_processes (process_labels_cpu s))
         (show_ranked memory_text 0 top_memory_processes
            (process_labels_memory s)) s,
       Ok ())
  end.

(** Lines 118-121: the local [cpu_name].  [cpu_info.current] on [None]
    raises [AttributeError]. *)
Definition local_cpu_name (m : metrics) : result string :=
  if has_cpu_freq m then
    cpu_info ← cpu_freq m;
    match cpu_info with
    | Some current =>
        Ok ("CPU: " +:+ str_count (cpu_count m) +:+ " cores, "
            +:+ format_2f current +:+ " MHz")
    | None => Raise AttributeError
    end
  else Ok "Unknown CPU".

(** Lines 117-125: the local [cpu_name] is computed and not read. *)
Definition update_system_info_label (m : metrics) : method := λ s,
  match local_cpu_name m with
  | Raise e => (s, Raise e)
  | Ok _ =>
      let memory_info :=
        "Memory: "
        +:+ format_2f (int_truediv (virtual_memory_total m) (1024 ^ 3))
        +:+ " GB" in
      let cpu_info := "CPU: " +:+ cpu_name s in
      (set_system_info_label
         (cpu_info +:+ newline +:+ gpu_name s +:+ newline +:+ memory_info) s,
       Ok ())
  end.

(** Lines 82-95: one tick of the timer. *)
Definition update_system_info (m : metrics) : method :=
  seq_method (push_cpu (cpu_percent m))
    (seq_method (push_memory (virtual_memory_percent m))
       (seq_method (update_system_info_label m) (update_process_info m))).

(** *** Vocabulary of the statements *)

Definition not_idle (p : process) : Prop := info_name p ≠ Some idle_name.

Definition entry_of (p : process) (rss : Z) : entry :=
  (info_name p, info_cpu_percent p, int_truediv rss (1024 ^ 2)).

Definition fetched (p : process) (x : entry) : Prop :=
  ∃ rss, memory_info_rss p = Ok rss ∧ x = entry_of p rss.

(** The keys of [l] are floats, those [k] gives. *)
Definition keyed {A : Type} (key : A → option Q) (k : A → Q) (l : list A)
  : Prop :=
  Forall (λ x, key x = Some (k x)) l.

(** The CPU percent of an entry that has one. *)
Definition cpu_key (x : entry) : Q := default 0%Q (entry_cpu x).

(** What line 105 makes of an entry that has a CPU percent. *)
Definition normalized (num_cores : Z) (x : entry) : shown_entry :=
  (entry_name x, round64 (cpu_key x / inject_Z num_cores), entry_memory x).

(** The fields after the two pushes of a tick. *)
Definition pushed (m : metrics) (s : SystemMonitorApp) : SystemMonitorApp :=
  App (drop 1 (cpu_usage_history s) ++ [cpu_percent m])
      (drop 1 (memory_usage_history s) ++ [virtual_memory_percent m])
      (system_info_label s) (process_labels_cpu s) (process_labels_memory s)
      (gpu_name s) (cpu_name s).

(** The fields after the two pushes and the label refresh of a tick. *)
Definition sampled (m : metrics) (s : SystemMonitorApp) : SystemMonitorApp :=
  App (drop 1 (cpu_usage_history s) ++ [cpu_percent m])
      (drop 1 (memory_usage_history s) ++ [virtual_memory_percent m])
      (("CPU: " +:+ cpu_name s) +:+ newline +:+ gpu_name s +:+ newline
       +:+ "Memory: "
       +:+ format_2f (int_truediv (virtual_memory_total m) (1024 ^ 3))
       +:+ " GB")
      (process_labels_cpu s) (process_labels_memory s)
      (gpu_name s) (cpu_name s).

End Raw.

(** The answers in which every attribute is present, among all answers. *)
Definition process_to_raw (p : process) : Raw.process :=
  {| Raw.info_name := Some (info_name p);
     Raw.info_cpu_percent := Some (info_cpu_percent p);
     Raw.memory_info_rss := memory_info_rss p |}.

Definition entry_to_raw (x : entry) : Raw.entry :=
  (Some (entry_name x), Some (entry_cpu x), entry_memory x).
Definition entry_to_shown (x : entry) : Raw.shown_entry :=
  (Some (entry_name x), entry_cpu x, entry_memory x).

Definition metrics_to_raw (current : Q) (m : metrics) : Raw.metrics :=
  {| Raw.cpu_percent := cpu_percent m;
     Raw.virtual_memory_percent := virtual_memory_percent m;
     Raw.virtual_memory_total := virtual_memory_total m;
     Raw.cpu_count := Some (cpu_count m);
     Raw.has_cpu_freq := true;
     Raw.cpu_freq := Ok (Some current);
     Raw.process_iter := process_to_raw <$> process_iter m |}.

(** A tick during which the CPU percent of a process cannot be read, and
    one during which [psutil.cpu_freq()] returns [None]. *)
Definition denied_tick : Raw.metrics :=
  {| Raw.cpu_percent := 12;
     Raw.virtual_memory_percent := 40;
     Raw.virtual_memory_total := 8 * 1024 ^ 3;
     Raw.cpu_count := Some 4%Z;
     Raw.has_cpu_freq := true;
     Raw.cpu_freq := Ok (Some 2400%Q);
     Raw.process_iter :=
       [ Raw.Build_process (Some "init") (Some 1%Q) (Ok (4 * 1024 ^ 2)%Z);
         Raw.Build_process None None (Ok (6 * 1024 ^ 2)%Z) ] |}.
Definition no_freq_tick : Raw.metrics :=
  {| Raw.cpu_percent := 12;
     Raw.virtual_memory_percent := 40;
     Raw.virtual_memory_total := 8 * 1024 ^ 3;
     Raw.cpu_count := Some 4%Z;
     Raw.has_cpu_freq := true;
     Raw.cpu_freq := Ok None;
     Raw.process_iter :=
       [ Raw.Build_process (Some "init") (Some 1%Q) (Ok (4 * 1024 ^ 2)%Z) ] |}.

(** The snapshot of [busy_tick] among all answers. *)
Definition busy_tick_raw_processes : list Raw.entry :=
  entry_to_raw <$> busy_tick_processes.

(** Two CPU percents, one the next float after the other, whose quotients
    by three are the same float. *)
Definition close_snapshot : list entry :=
  [ ("A", 6980579422424269 # 2251799813685248, 1%Q);
    ("B", 6980579422424270 # 2251799813685248, 1%Q) ].

(** * Properties *)

(** ** Evaluations *)

Example push_example :
  push_all (Np.zeros 5) [10; 20; 30]%Q = Ok [0; 0; 10; 20; 30]%Q.
Proof. reflexivity. Qed.

Example push_empty : push [] 1%Q = Raise IndexError.
Proof. reflexivity. Qed.

Example rank_example :
  rank entry_cpu [("A", 90, 100); ("B", 50, 500); ("C", 90, 50)]%Q 2
  = [("A", 90, 100); ("C", 90, 50)]%Q.
Proof. reflexivity. Qed.

Example cpu_text_example :
  cpu_text ("python", 25 # 2, 3%Q) = "python: CPU 12.50%".
Proof. vm_compute. reflexivity. Qed.

Example format_2f_tie : format_2f (1005 # 1000) = "1.00".
Proof. vm_compute. reflexivity. Qed.

Example split_example :
  Str.split ":"%char "model name : X" = ["model name "; " X"].
Proof. reflexivity. Qed.

Example strip_example : Str.strip ("  Intel i7 " +:+ newline) = "Intel i7".
Proof. reflexivity. Qed.

Example init_linux_host :
  SystemMonitorApp_init linux_host
  = Ok (App (Np.zeros 60) (Np.zeros 60) "" initial_labels initial_labels
            "GPU: not supported" "Some CPU @ 3GHz").
Proof. vm_compute. reflexivity. Qed.

Example round64_example :
  Qred (round64 (3 # 200)) = 1080863910568919 # 72057594037927936.
Proof. vm_compute. reflexivity. Qed.

Example division_example :
  format_2f (round64 ((3 # 2) / 100)) = "0.01"
  ∧ format_2f (round64 ((1 # 2) / 100)) = "0.01".
Proof. vm_compute. by split. Qed.

Example denied_tick_raises :
  Raw.top_processes denied_tick = Raise TypeError.
Proof. reflexivity. Qed.

(** ** Binary64 rounding *)

Ltac compare_to_order :=
  repeat match goal with
         | H : (_ ?= _)%Q = Eq |- _ => apply Qeq_alt in H
         | H : (_ ?= _)%Q = Lt |- _ => apply Qlt_alt in H
         | H : (_ ?= _)%Q = Gt |- _ => apply Qgt_alt in H
         end.

Lemma round_half_even_bounds q :
  (Qfloor q <= round_half_even q <= Qfloor q + 1)%Z.
Proof.
  unfold round_half_even.
  destruct (q - inject_Z (Qfloor q) ?= 1 # 2)%Q; [destruct (Z.even _)|..]; lia.
Qed.

Lemma round_half_even_mono q q' :
  (q <= q')%Q → (round_half_even q <= round_half_even q')%Z.
Proof.
  intros Hle. pose proof (Qfloor_resp_le _ _ Hle) as Hf.
  destruct (decide (Qfloor q = Qfloor q')) as [Heq|Hne].
  - unfold round_half_even. rewrite <- Heq.
    destruct (q - inject_Z (Qfloor q) ?= 1 # 2)%Q eqn:Hc;
      destruct (q' - inject_Z (Qfloor q) ?= 1 # 2)%Q eqn:Hc';
      try (destruct (Z.even (Qfloor q))); try lia; exfalso;
      compare_to_order;
      revert Hc Hc'; generalize (inject_Z (Qfloor q)); intros f ??; lra.
  - pose proof (round_half_even_bounds q).
    pose proof (round_half_even_bounds q'). lia.
Qed.

Lemma round_half_even_inject z : round_half_even (inject_Z z) = z.
Proof.
  unfold round_half_even. rewrite Qfloor_Z.
  assert ((inject_Z z - inject_Z z ?= 1 # 2)%Q = Lt) as ->; [|done].
  apply (proj1 (Qlt_alt _ _)). generalize (inject_Z z). intros f. lra.
Qed.

Lemma pow2_pos e : (0 < 2 ^ e)%Q.
Proof. by apply Qpower_0_lt. Qed.

Lemma pow2_succ e : (2 ^ (e + 1) == 2 * 2 ^ e)%Q.
Proof. rewrite Qpower_plus by done. change (2 ^ 1)%Q with 2%Q. ring. Qed.

Lemma pow2_le e e' : (e <= e')%Z → (2 ^ e <= 2 ^ e')%Q.
Proof. intros. by apply Qpower_le_compat_l. Qed.

Lemma inject_pow2 n : (0 <= n)%Z → (inject_Z (2 ^ n) == 2 ^ n)%Q.
Proof. intros Hn. by rewrite Zpower_Qpower. Qed.

(** [ilog2 a] is the exponent of the power of two at or below [a]. *)
Lemma ilog2_spec a :
  (0 < a)%Q → (2 ^ ilog2 a <= a)%Q ∧ (a < 2 ^ (ilog2 a + 1))%Q.
Proof.
  intros Ha. unfold ilog2.
  set (p := Z.log2 (Qnum a)). set (q := Z.log2 (Z.pos (Qden a))).
  assert (0 < Qnum a)%Z as Hn.
  { destruct a as [n d]. unfold Qlt in Ha. cbn in *. lia. }
  destruct (Z.log2_spec (Qnum a) Hn) as [Hp1 Hp2].
  destruct (Z.log2_spec (Z.pos (Qden a)) eq_refl) as [Hq1 Hq2].
  fold p in Hp1, Hp2. fold q in Hq1, Hq2.
  assert (0 <= p)%Z as Hp0 by apply Z.log2_nonneg.
  assert (0 <= q)%Z as Hq0 by apply Z.log2_nonneg.
  rewrite Z.pow_succ_r in Hp2, Hq2 by done.
  rewrite Zle_Qle, Zpower_Qpower in Hp1, Hq1 by done.
  rewrite Zlt_Qlt, inject_Z_mult, Zpower_Qpower in Hp2, Hq2 by done.
  change (inject_Z 2) with 2%Q in *.
  assert (a * inject_Z (Z.pos (Qden a)) == inject_Z (Qnum a))%Q as Had.
  { destruct a as [n d]. unfold Qeq, Qmult, inject_Z. cbn. lia. }
  assert (2 ^ (p - q) * 2 ^ q == 2 ^ p)%Q as Hk.
  { rewrite <- Qpower_plus by done. by replace (p - q + q)%Z with p by lia. }
  pose proof (pow2_pos (p - q)) as HK. pose proof (pow2_pos q) as HQ.
  pose proof (pow2_pos p) as HP.
  pose proof (pow2_succ (p - q - 1)) as Hk1.
  replace (p - q - 1 + 1)%Z with (p - q)%Z in Hk1 by lia.
  pose proof (pow2_succ (p - q)) as Hk2.
  cbv zeta.
  destruct (Qle_bool (2 ^ (p - q)) a) eqn:Hle.
  - apply Qle_bool_iff in Hle. split; [done|].
    revert Had Hk HK HQ HP Hk2 Hp1 Hp2 Hq1 Hq2 Ha Hle.
    generalize (2 ^ (p - q + 1))%Q (2 ^ (p - q))%Q
      (2 ^ p)%Q (2 ^ q)%Q (inject_Z (Z.pos (Qden a))) (inject_Z (Qnum a)).
    intros K2 K P Q' D N. intros. nra.
  - assert (a < 2 ^ (p - q))%Q as Hlt.
    { apply Qnot_le_lt. intros H. apply Qle_bool_iff in H. congruence. }
    replace (p - q - 1 + 1)%Z with (p - q)%Z by lia.
    split; [|done].
    revert Had Hk HK HQ HP Hk1 Hp1 Hp2 Hq1 Hq2 Ha Hlt.
    generalize (2 ^ (p - q - 1))%Q (2 ^ (p - q))%Q
      (2 ^ p)%Q (2 ^ q)%Q (inject_Z (Z.pos (Qden a))) (inject_Z (Qnum a)).
    intros K1 K P Q' D N. intros. nra.
Qed.

Lemma ilog2_mono a b : (0 < a)%Q → (a <= b)%Q → (ilog2 a <= ilog2 b)%Z.
Proof.
  intros Ha Hab. assert (0 < b)%Q as Hb by lra.
  destruct (ilog2_spec a Ha) as [Ha1 _]. destruct (ilog2_spec b Hb) as [_ Hb2].
  assert (2 ^ ilog2 a < 2 ^ (ilog2 b + 1))%Q as Hlt by lra.
  apply Qpower_lt_compat_l_inv in Hlt; [lia | done].
Qed.

(** The scaled value has at most 53 bits, and exactly 53 for a normal
    number. *)
Lemma round64_pos_scaled a :
  (0 < a)%Q →
  (a / 2 ^ ulp_exp a < 2 ^ 53)%Q
  ∧ ((-1022 <= ilog2 a)%Z → (2 ^ 52 <= a / 2 ^ ulp_exp a)%Q).
Proof.
  intros Ha. destruct (ilog2_spec a Ha) as [Hlo Hhi].
  pose proof (pow2_pos (ulp_exp a)) as Hu. split.
  - apply Qlt_shift_div_r; [done|].
    rewrite <- Qpower_plus by done.
    eapply Qlt_le_trans; [exact Hhi|]. apply pow2_le. unfold ulp_exp. lia.
  - intros Hnormal. apply Qle_shift_div_l; [done|].
    rewrite <- Qpower_plus by done.
    eapply Qle_trans; [|exact Hlo]. apply pow2_le. unfold ulp_exp. lia.
Qed.

Lemma round64_pos_bounds a :
  (0 < a)%Q →
  (0 <= round64_pos a)%Q
  ∧ (round64_pos a <= 2 ^ (ulp_exp a + 53))%Q
  ∧ ((-1022 <= ilog2 a)%Z → (2 ^ (ulp_exp a + 52) <= round64_pos a)%Q).
Proof.
  intros Ha. destruct (round64_pos_scaled a Ha) as [Hhi Hlo].
  unfold round64_pos.
  pose proof (pow2_pos (ulp_exp a)) as Hu.
  set (x := (a / 2 ^ ulp_exp a)%Q) in *.
  assert (0 <= x)%Q as Hx.
  { unfold x. apply Qle_shift_div_l; [done|]. lra. }
  assert (0 <= inject_Z (round_half_even x))%Q as H0.
  { change 0%Q with (inject_Z 0). rewrite <- Zle_Qle.
    rewrite <- (round_half_even_inject 0). by apply round_half_even_mono. }
  assert (inject_Z (round_half_even x) <= 2 ^ 53)%Q as H53.
  { rewrite <- (inject_pow2 53) by done. rewrite <- Zle_Qle.
    rewrite <- (round_half_even_inject (2 ^ 53)). apply round_half_even_mono.
    rewrite inject_pow2 by done. lra. }
  split; [|split].
  - apply Qmult_le_0_compat; lra.
  - rewrite Qpower_plus by done. rewrite (Qmult_comm (2 ^ ulp_exp a)).
    apply Qmult_le_compat_r; lra.
  - intros Hn. specialize (Hlo Hn).
    rewrite Qpower_plus by done. rewrite (Qmult_comm (2 ^ ulp_exp a)).
    apply Qmult_le_compat_r; [|lra].
    rewrite <- (inject_pow2 52) by done. rewrite <- Zle_Qle.
    rewrite <- (round_half_even_inject (2 ^ 52)). apply round_half_even_mono.
    by rewrite inject_pow2.
Qed.

Lemma round64_pos_mono a b :
  (0 < a)%Q → (a <= b)%Q → (round64_pos a <= round64_pos b)%Q.
Proof.
  intros Ha Hab. assert (0 < b)%Q as Hb by lra.
  pose proof (ilog2_mono a b Ha Hab) as Hlog.
  destruct (decide (ulp_exp a = ulp_exp b)) as [Heq|Hne].
  - unfold round64_pos. rewrite Heq.
    pose proof (pow2_pos (ulp_exp b)) as Hu.
    apply Qmult_le_compat_r; [|lra].
    rewrite <- Zle_Qle. apply round_half_even_mono.
    apply Qmult_le_compat_r; [done|]. apply Qlt_le_weak, Qinv_lt_0_compat, Hu.
  - destruct (round64_pos_bounds a Ha) as (_ & Hup & _).
    destruct (round64_pos_bounds b Hb) as (_ & _ & Hlow).
    assert (ulp_exp a + 53 <= ulp_exp b + 52)%Z as Hexp
      by (unfold ulp_exp in *; lia).
    eapply Qle_trans; [exact Hup|].
    eapply Qle_trans; [apply pow2_le, Hexp|].
    apply Hlow. unfold ulp_exp in *. lia.
Qed.

(** Rounding to binary64 keeps the order. *)
Lemma round64_mono x y : (x <= y)%Q → (round64 x <= round64 y)%Q.
Proof.
  intros Hxy. unfold round64.
  destruct (x ?= 0)%Q eqn:Hx; destruct (y ?= 0)%Q eqn:Hy;
    compare_to_order; try lra.
  - destruct (round64_pos_bounds y) as [H _]; [lra|]. lra.
  - destruct (round64_pos_bounds (- x)) as [H _]; [lra|]. lra.
  - assert (round64_pos (- y) <= round64_pos (- x))%Q
      by (apply round64_pos_mono; lra). lra.
  - destruct (round64_pos_bounds (- x)) as [H _]; [lra|].
    destruct (round64_pos_bounds y) as [H' _]; [lra|]. lra.
  - apply round64_pos_mono; lra.
Qed.

(** So does the division of floats by a positive int. *)
Lemma round64_div_mono (x y : Q) (n : Z) :
  (0 < n)%Z → (x <= y)%Q →
  (round64 (x / inject_Z n) <= round64 (y / inject_Z n))%Q.
Proof.
  intros Hn Hxy. apply round64_mono.
  apply Qmult_le_compat_r; [done|].
  apply Qlt_le_weak, Qinv_lt_0_compat.
  change 0%Q with (inject_Z 0). by rewrite <- Zlt_Qlt.
Qed.

(** ** The rolling window *)

Section window.
Context {A : Type}.
Implicit Types (a : list A) (x v : A).

Lemma roll_left_cons x a : Np.roll (x :: a) (-1) = a ++ [x].
Proof.
  destruct a as [|y a]; [reflexivity|].
  unfold Np.roll, rotate. cbn [length].
  rewrite Z.mod_small by lia.
  change (Z.to_nat (- -1)) with 1.
  rewrite Nat.mod_small by lia. reflexivity.
Qed.

Lemma setitem_last a x v : Np.setitem (a ++ [x]) (-1) v = Ok (a ++ [v]).
Proof.
  unfold Np.setitem. rewrite length_app. cbn [length].
  rewrite bool_decide_eq_false_2 by lia.
  rewrite bool_decide_eq_true_2 by lia.
  f_equal.
  replace (Z.to_nat (-1 + Z.of_nat (length a + 1))) with (length a + 0) by lia.
  rewrite insert_app_r. reflexivity.
Qed.
End window.

Lemma push_cons x w v : push (x :: w) v = Ok (w ++ [v]).
Proof. unfold push. rewrite roll_left_cons. apply setitem_last. Qed.

Lemma push_drop w v : 1 ≤ length w → push w v = Ok (drop 1 w ++ [v]).
Proof. destruct w; cbn [length]; [lia|]. intros _. apply push_cons. Qed.

Lemma push_all_drop w vs :
  1 ≤ length w → push_all w vs = Ok (drop (length vs) (w ++ vs)).
Proof.
  revert w. induction vs as [|v vs IH]; intros w Hw.
  - cbn. by rewrite app_nil_r.
  - destruct w as [|x w]; [cbn in Hw; lia|].
    cbn [push_all]. rewrite push_cons. cbn [mbind result_bind bind].
    rewrite IH by (rewrite length_app; cbn; lia).
    cbn [length drop]; rewrite <- app_comm_cons; cbn [drop].
    by rewrite <- app_assoc.
Qed.

(** C3. On a window of capacity [c >= 1] a push drops the element at index 0
    and appends the value, and after any number of pushes (every prefix of
    any sequence of values) the window is still of length [c]. *)
Theorem push_keeps_capacity (c : nat) (w : list Q) :
  1 ≤ c → length w = c →
  (∀ v, push w v = Ok (drop 1 w ++ [v])) ∧
  (∀ vs i, ∃ w', push_all w (take i vs) = Ok w' ∧ length w' = c).
Proof.
  intros Hc Hw. split.
  - intros v. apply push_drop. lia.
  - intros vs i. eexists. split; [apply push_all_drop; lia|].
    rewrite length_drop, length_app. lia.
Qed.

Lemma push_keeps_capacity_witness :
  (∀ v, push [0; 0]%Q v = Ok (drop 1 [0; 0]%Q ++ [v])) ∧
  (∀ vs i, ∃ w', push_all [0; 0]%Q (take i vs) = Ok w' ∧ length w' = 2).
Proof. apply (push_keeps_capacity 2 [0; 0]%Q); [lia | reflexivity]. Defined.

(** C4. The window is first-in first-out: pushing [n <= c] values onto the
    all-zero window of capacity [c] leaves [c - n] zeros followed by the
    values in the order pushed; capacity 5 and the pushes 10, 20, 30 give
    [0, 0, 10, 20, 30]. *)
Theorem push_fifo (c : nat) (vs : list Q) :
  length vs ≤ c →
  push_all (Np.zeros c) vs = Ok (replicate (c - length vs) 0%Q ++ vs)
  ∧ push_all (Np.zeros 5) [10; 20; 30]%Q = Ok [0; 0; 10; 20; 30]%Q.
Proof.
  intros Hn. split; [|reflexivity].
  destruct c as [|c].
  - destruct vs; [reflexivity | cbn in Hn; lia].
  - rewrite push_all_drop by (unfold Np.zeros; rewrite length_replicate; lia).
    unfold Np.zeros.
    rewrite drop_app_le by (rewrite length_replicate; lia).
    by rewrite drop_replicate.
Qed.

Lemma push_fifo_witness :
  push_all (Np.zeros 4) [7; 8; 9]%Q = Ok (replicate (4 - 3) 0%Q ++ [7; 8; 9]%Q)
  ∧ push_all (Np.zeros 5) [10; 20; 30]%Q = Ok [0; 0; 10; 20; 30]%Q.
Proof. apply (push_fifo 4 [7; 8; 9]%Q). cbn. lia. Defined.

(** ** The ranker *)

Lemma Qltb_true x y : Qltb x y = true ↔ (x < y)%Q.
Proof.
  unfold Qltb. rewrite negb_true_iff, <- not_true_iff_false, Qle_bool_iff.
  split; [apply Qnot_le_lt | apply Qlt_not_le].
Qed.

Lemma Qltb_false x y : Qltb x y = false ↔ (y <= x)%Q.
Proof. unfold Qltb. by rewrite negb_false_iff, Qle_bool_iff. Qed.

Section sorted_facts.
Context {A : Type} (key : A → Q).
Implicit Types (x y : A) (l : list A) (v : Q).

Global Instance key_ge_trans : Transitive (key_ge key).
Proof. intros x y z Hxy Hyz. unfold key_ge in *. by eapply Qle_trans. Qed.

Lemma insert_asc_perm x l : insert_asc key x l ≡ₚ x :: l.
Proof.
  induction l as [|y l IH]; [done|]. cbn.
  destruct (Qltb (key y) (key x)); [|done].
  rewrite IH. apply Permutation_swap.
Qed.

Lemma sort_asc_perm l : sort_asc key l ≡ₚ l.
Proof.
  induction l as [|x l IH]; [done|]. cbn.
  by rewrite insert_asc_perm, IH.
Qed.

Lemma insert_asc_hd z x l :
  key_le key z x → HdRel (key_le key) z l →
  HdRel (key_le key) z (insert_asc key x l).
Proof.
  intros Hzx Hzl. destruct l as [|y l]; cbn; [by constructor|].
  destruct (Qltb (key y) (key x)); constructor; [|done].
  by inv Hzl.
Qed.

Lemma insert_asc_sorted x l :
  Sorted (key_le key) l → Sorted (key_le key) (insert_asc key x l).
Proof.
  induction 1 as [|y l Hl IH Hy]; cbn; [by repeat constructor|].
  destruct (Qltb (key y) (key x)) eqn:Hlt.
  - constructor; [done|]. apply insert_asc_hd; [|done].
    apply Qltb_true in Hlt. by apply Qlt_le_weak.
  - apply Qltb_false in Hlt. by repeat constructor.
Qed.

Lemma sort_asc_sorted l : Sorted (key_le key) (sort_asc key l).
Proof.
  induction l as [|x l IH]; cbn; [constructor|].
  by apply insert_asc_sorted.
Qed.

(** An insertion moves the new entry past strictly smaller keys only, so
    the entries of any one key keep their order. *)
Lemma insert_asc_with_key v x l :
  with_key key v (insert_asc key x l) = with_key key v (x :: l).
Proof.
  unfold with_key. induction l as [|y l IH]; [done|]. cbn [insert_asc].
  destruct (Qltb (key y) (key x)) eqn:Hlt; [|done].
  apply Qltb_true in Hlt.
  rewrite (filter_cons _ y), IH, !(filter_cons _ x), (filter_cons _ y).
  destruct (decide (key y == v)%Q) as [Hy|]; [|done].
  destruct (decide (key x == v)%Q) as [Hx|]; [|done].
  exfalso. apply (Qlt_irrefl v).
  by rewrite <- Hy at 1; rewrite <- Hx.
Qed.

Lemma sort_asc_with_key v l :
  with_key key v (sort_asc key l) = with_key key v l.
Proof.
  induction l as [|x l IH]; [done|].
  change (sort_asc key (x :: l)) with (insert_asc key x (sort_asc key l)).
  rewrite insert_asc_with_key. unfold with_key in *.
  by rewrite !(filter_cons _ x), IH.
Qed.

Lemma sorted_perm l r : sorted key l r ≡ₚ l.
Proof.
  destruct r; cbn; [|apply sort_asc_perm].
  by rewrite reverse_Permutation, sort_asc_perm, reverse_Permutation.
Qed.

Lemma sorted_descending l : StronglySorted (key_ge key) (sorted key l true).
Proof.
  apply Sorted_StronglySorted; [apply _|]. cbn.
  apply (Sorted_reverse (key_le key)), sort_asc_sorted.
Qed.

Lemma sorted_stable v l r :
  with_key key v (sorted key l r) = with_key key v l.
Proof.
  destruct r; cbn; [|apply sort_asc_with_key].
  unfold with_key. rewrite filter_reverse.
  fold (with_key key v (sort_asc key (reverse l))).
  rewrite sort_asc_with_key. unfold with_key.
  by rewrite filter_reverse, reverse_involutive.
Qed.

Lemma rank_length l k : length (rank key l k) = min k (length l).
Proof.
  unfold rank. rewrite length_take. f_equal.
  apply Permutation_length, sorted_perm.
Qed.

Lemma rank_elem_of x l k : x ∈ rank key l k → x ∈ l.
Proof.
  intros Hx. rewrite <- (sorted_perm l true).
  by apply (subseteq_take k).
Qed.
End sorted_facts.

(** C5. [rank] returns the [k] entries of largest key (all of them when
    there are fewer): together with the entries left out it is a
    rearrangement of the snapshot and no entry left out has a larger key
    than an entry kept; the result is in descending order of the key; and
    the kept entries of any one key are the first ones of that key in the
    snapshot, in snapshot order.  Ranking [(A,90,100), (B,50,500),
    (C,90,50)] by CPU with [k = 2] gives [(A,90,100), (C,90,50)]. *)
Theorem rank_top_k_stable {A : Type} (key : A → Q) (snapshot : list A)
    (k : nat) :
  (∃ rest, rank key snapshot k ++ rest ≡ₚ snapshot ∧
     ∀ x y, x ∈ rank key snapshot k → y ∈ rest → (key y <= key x)%Q)
  ∧ length (rank key snapshot k) = min k (length snapshot)
  ∧ StronglySorted (λ x y, key y <= key x)%Q (rank key snapshot k)
  ∧ (∀ v, filter (λ x, key x == v)%Q (rank key snapshot k)
          `prefix_of` filter (λ x, key x == v)%Q snapshot)
  ∧ rank entry_cpu [("A", 90, 100); ("B", 50, 500); ("C", 90, 50)]%Q 2
    = [("A", 90, 100); ("C", 90, 50)]%Q.
Proof.
  pose proof (sorted_descending key snapshot) as Hdesc.
  rewrite <- (take_drop k (sorted key snapshot true)) in Hdesc.
  apply StronglySorted_app in Hdesc as (Hcut & Htop & _).
  split; [|split; [|split; [|split]]].
  - exists (drop k (sorted key snapshot true)). unfold rank. split.
    + rewrite take_drop. apply sorted_perm.
    + intros x y Hx Hy. by apply Hcut.
  - apply rank_length.
  - exact Htop.
  - intros v.
    exists (filter (λ x, key x == v)%Q (drop k (sorted key snapshot true))).
    unfold rank. rewrite <- filter_app, take_drop.
    symmetry. apply (sorted_stable key v snapshot true).
  - reflexivity.
Qed.

(** C6. [rank] returns [min k |snapshot|] entries, never more; when [k] is
    at least the size of the snapshot every entry is returned and nothing
    is added; and the empty snapshot gives the empty list, for both
    rankings of a tick without any exception. *)
Theorem rank_at_most_k {A : Type} (key : A → Q) (snapshot : list A) (k : nat) :
  length (rank key snapshot k) ≤ min k (length snapshot)
  ∧ rank key snapshot (length snapshot + k) ≡ₚ snapshot
  ∧ rank key [] k = []
  ∧ (∀ c m t n, top_processes (Build_metrics c m t n []) = Ok ([], [])).
Proof.
  split; [|split; [|split]].
  - by rewrite rank_length.
  - unfold rank. rewrite take_ge; [apply sorted_perm|].
    rewrite (Permutation_length (sorted_perm key snapshot true)). lia.
  - by destruct k.
  - reflexivity.
Qed.

(** ** The snapshot of one tick *)

Lemma processes_of_Ok ps es :
  processes_of ps = Ok es ↔ Forall2 fetched (filter not_idle ps) es.
Proof.
  revert es. induction ps as [|p ps IH]; intros es; cbn [processes_of].
  - rewrite filter_nil. split; [intros [= <-]; constructor | by inv 1].
  - rewrite filter_cons. unfold not_idle at 1. case_bool_decide; case_decide; try done.
    destruct (memory_info_rss p) as [rss|e] eqn:Hp; cbn [mbind result_bind bind].
    + destruct (processes_of ps) as [rest|e] eqn:Hps; cbn [bind].
      * split.
        -- intros [= <-]. constructor; [by exists rss | by apply IH].
        -- inv 1 as [|?? x es' (rss' & Hrss & ->) Hrest].
           apply IH in Hrest. rewrite Hp in Hrss. by simplify_eq.
      * split; [done|]. inv 1 as [|?? x es' _ Hrest].
        apply IH in Hrest. done.
    + split; [done|]. inv 1 as [|?? x es' (rss' & Hrss & _) _]. congruence.
Qed.

Lemma processes_of_Raise ps p e :
  p ∈ ps → not_idle p → memory_info_rss p = Raise e →
  ∃ e', processes_of ps = Raise e'.
Proof.
  intros Hin Hp He. destruct (processes_of ps) as [es|e'] eqn:Hps; [|by eexists].
  apply processes_of_Ok in Hps.
  assert (p ∈ filter not_idle ps) as Hin' by (by apply list_elem_of_filter).
  apply list_elem_of_lookup in Hin' as [i Hi].
  destruct (Forall2_lookup_l _ _ _ _ _ Hps Hi) as (x & _ & rss & Hrss & _).
  congruence.
Qed.

Lemma normalize_Ok n top : n ≠ 0%Z → normalize n top = Ok (normalized n <$> top).
Proof.
  intros Hn. induction top as [|[[name cpu] memory] top IH]; [done|].
  cbn [normalize]. unfold truediv. rewrite bool_decide_eq_false_2 by done.
  cbn [mbind result_bind bind]. by rewrite IH.
Qed.

Lemma normalize_names n top top' :
  normalize n top = Ok top' → entry_name <$> top' = entry_name <$> top.
Proof.
  revert top'. induction top as [|[[name cpu] memory] top IH]; intros top'.
  - by intros [= <-].
  - cbn [normalize]. destruct (truediv cpu n); cbn [mbind result_bind bind]; [|done].
    destruct (normalize n top) as [rest|]; cbn [bind]; [|done].
    intros [= <-]. cbn. f_equal. by apply IH.
Qed.

Lemma top_processes_Ok m tc tm :
  top_processes m = Ok (tc, tm) ↔
  ∃ processes, processes_of (process_iter m) = Ok processes
    ∧ normalize (cpu_count m) (rank entry_cpu processes 5) = Ok tc
    ∧ tm = rank entry_memory processes 5.
Proof.
  unfold top_processes. split.
  - destruct (processes_of (process_iter m)) as [processes|];
      cbn [mbind result_bind bind]; [|done].
    destruct (normalize _ _) as [tc'|] eqn:Hn;
      cbn [mbind result_bind bind]; [|done].
    intros [= <- <-]. by exists processes.
  - intros (processes & -> & Hn & ->). cbn [mbind result_bind bind].
    by rewrite Hn.
Qed.

(** C7. A process named "System Idle Process" is left out of the snapshot
    before ranking: whenever a tick produces its ranked lists, no entry of
    the snapshot, of the CPU ranking or of the memory ranking bears that
    name, whatever CPU value the process reports. *)
Theorem idle_process_never_ranked (m : metrics) (tc tm : list entry) :
  top_processes m = Ok (tc, tm) →
  (∃ processes, processes_of (process_iter m) = Ok processes
     ∧ ∀ x, x ∈ processes → entry_name x ≠ idle_name)
  ∧ (∀ x, x ∈ tc → entry_name x ≠ idle_name)
  ∧ (∀ x, x ∈ tm → entry_name x ≠ idle_name).
Proof.
  intros (processes & Hps & Hn & ->)%top_processes_Ok.
  assert (∀ x, x ∈ processes → entry_name x ≠ idle_name) as Hnames.
  { intros x Hx. apply processes_of_Ok in Hps.
    apply list_elem_of_lookup in Hx as [i Hi].
    destruct (Forall2_lookup_r _ _ _ _ _ Hps Hi) as (p & Hp & rss & _ & ->).
    apply list_elem_of_lookup_2, list_elem_of_filter in Hp as [Hp _]. exact Hp. }
  split; [by exists processes|]. split.
  - intros x Hx. apply normalize_names in Hn.
    assert (entry_name x ∈ entry_name <$> rank entry_cpu processes 5) as Hx'.
    { rewrite <- Hn. by apply list_elem_of_fmap_2. }
    apply list_elem_of_fmap in Hx' as (y & -> & Hy).
    by apply Hnames, (rank_elem_of entry_cpu y processes 5).
  - intros x Hx. by apply Hnames, (rank_elem_of entry_memory x processes 5).
Qed.

Lemma idle_process_never_ranked_witness :
  top_processes busy_tick = Ok busy_tick_ranked
  ∧ (∃ processes, processes_of (process_iter busy_tick) = Ok processes
       ∧ ∀ x, x ∈ processes → entry_name x ≠ idle_name)
  ∧ (∀ x, x ∈ busy_tick_ranked.1 → entry_name x ≠ idle_name)
  ∧ (∀ x, x ∈ busy_tick_ranked.2 → entry_name x ≠ idle_name).
Proof.
  split; [reflexivity|].
  apply (idle_process_never_ranked busy_tick). reflexivity.
Defined.

(** ** A failing detail fetch *)

(** C1, as the claim has it, fails: with the processes init, gone (whose
    [memory_info()] raises [NoSuchProcess]) and bash the tick does not
    complete; it raises, the rankings of init and bash are not produced
    and the labels keep their initial text. *)
Lemma failed_fetch_not_skipped :
  (update_system_info exited_tick started).2 = Raise NoSuchProcess
  ∧ top_processes exited_tick = Raise NoSuchProcess
  ∧ is_ok (top_processes exited_tick) = false
  ∧ process_labels_cpu (update_system_info exited_tick started).1
    = initial_labels
  ∧ process_labels_memory (update_system_info exited_tick started).1
    = initial_labels.
Proof. vm_compute. repeat split. Qed.

(** ** Normalising by the core count *)

Section rank_fmap.
Context {A B : Type} (key : A → Q) (key' : B → Q) (f : A → B).
Hypothesis same_order :
  ∀ x y, Qltb (key' (f x)) (key' (f y)) = Qltb (key x) (key y).

Lemma insert_asc_fmap x l :
  insert_asc key' (f x) (f <$> l) = f <$> insert_asc key x l.
Proof.
  induction l as [|y l IH]; [done|]. cbn [insert_asc fmap list_fmap].
  rewrite same_order. destruct (Qltb (key y) (key x)); [|done].
  cbn [fmap list_fmap]. f_equal. exact IH.
Qed.

Lemma sort_asc_fmap l : sort_asc key' (f <$> l) = f <$> sort_asc key l.
Proof.
  induction l as [|x l IH]; [done|].
  change (sort_asc key' (f <$> x :: l))
    with (insert_asc key' (f x) (sort_asc key' (f <$> l))).
  rewrite IH. apply insert_asc_fmap.
Qed.

Lemma rank_fmap l k : rank key' (f <$> l) k = f <$> rank key l k.
Proof.
  unfold rank, sorted.
  by rewrite <- fmap_reverse, sort_asc_fmap, <- fmap_reverse, fmap_take.
Qed.
End rank_fmap.

(** ** The labels *)

Section show_ranked_facts.
Context (text : entry → string).
Implicit Types (top : list entry) (labels : list string) (i j : nat).

Lemma show_ranked_length i top labels :
  length (show_ranked text i top labels) = length labels.
Proof.
  revert i labels. induction top as [|x top IH]; intros i labels; [done|].
  cbn [show_ranked]. rewrite IH. case_bool_decide; [|done].
  apply length_insert.
Qed.

(** Labels before index [i] and from index [i + len(top)] on are not
    touched. *)
Lemma show_ranked_frame i top labels j :
  j < i ∨ i + length top ≤ j →
  show_ranked text i top labels !! j = labels !! j.
Proof.
  revert i labels. induction top as [|x top IH]; intros i labels Hj; [done|].
  cbn [show_ranked length] in *. rewrite IH by lia.
  case_bool_decide; [|done]. apply list_lookup_insert_ne. lia.
Qed.

(** Label [i + j] shows entry [j] when there is such a label. *)
Lemma show_ranked_shown i top labels j x :
  top !! j = Some x → i + j < length labels →
  show_ranked text i top labels !! (i + j) = Some (text x).
Proof.
  revert i j labels. induction top as [|y top IH]; intros i j labels; [done|].
  cbn [show_ranked]. destruct j as [|j]; cbn [lookup list_lookup].
  - intros [= ->] Hlen. rewrite show_ranked_frame by lia.
    rewrite bool_decide_eq_true_2 by lia.
    rewrite Nat.add_0_r. apply list_lookup_insert_eq. lia.
  - intros Hx Hlen. replace (i + S j) with (S i + j) by lia.
    apply IH; [done|].
    case_bool_decide; [rewrite length_insert|]; lia.
Qed.
End show_ranked_facts.

(** C10. A tick overwrites the first [len(ranked list)] labels of each
    column and no other: a label at an index from that length on keeps the
    text it had, which after the start is "-------------"; a label below it
    shows the entry of its rank; the number of labels stays the same. *)
Theorem short_ranking_keeps_labels (m : metrics) (s : SystemMonitorApp)
    (tc tm : list entry) :
  top_processes m = Ok (tc, tm) →
  let s' := (update_process_info m s).1 in
  (∀ j, length tc ≤ j → process_labels_cpu s' !! j = process_labels_cpu s !! j)
  ∧ (∀ j, length tm ≤ j →
       process_labels_memory s' !! j = process_labels_memory s !! j)
  ∧ (∀ j x, tc !! j = Some x → j < length (process_labels_cpu s) →
       process_labels_cpu s' !! j = Some (cpu_text x))
  ∧ (∀ j x, tm !! j = Some x → j < length (process_labels_memory s) →
       process_labels_memory s' !! j = Some (memory_text x))
  ∧ length (process_labels_cpu s') = length (process_labels_cpu s)
  ∧ length (process_labels_memory s') = length (process_labels_memory s)
  ∧ (process_labels_cpu s = initial_labels →
     ∀ j, length tc ≤ j < 5 → process_labels_cpu s' !! j = Some "-------------")
  ∧ (process_labels_memory s = initial_labels →
     ∀ j, length tm ≤ j < 5 →
       process_labels_memory s' !! j = Some "-------------").
Proof.
  intros Htop. unfold update_process_info. rewrite Htop. cbn.
  assert (∀ j, j < 5 → initial_labels !! j = Some "-------------") as Hinit.
  { intros j Hj. do 5 (destruct j as [|j]; [reflexivity|]). lia. }
  repeat split.
  - intros j Hj. apply show_ranked_frame. lia.
  - intros j Hj. apply show_ranked_frame. lia.
  - intros j x Hx Hj. by apply (show_ranked_shown cpu_text 0).
  - intros j x Hx Hj. by apply (show_ranked_shown memory_text 0).
  - apply show_ranked_length.
  - apply show_ranked_length.
  - intros Hl j [Hj1 Hj2]. rewrite show_ranked_frame, Hl by lia. by apply Hinit.
  - intros Hl j [Hj1 Hj2]. rewrite show_ranked_frame, Hl by lia. by apply Hinit.
Qed.

Lemma short_ranking_keeps_labels_witness :
  top_processes busy_tick = Ok busy_tick_ranked
  ∧ process_labels_cpu (update_process_info busy_tick started).1
    = ["chrome: CPU 30.00%"; "python: CPU 12.50%";
       "-------------"; "-------------"; "-------------"]
  ∧ ∀ j, 2 ≤ j →
      process_labels_memory (update_process_info busy_tick started).1 !! j
      = process_labels_memory started !! j.
Proof.
  split; [reflexivity|]. split; [vm_compute; reflexivity|].
  apply (short_ranking_keeps_labels busy_tick started
           busy_tick_ranked.1 busy_tick_ranked.2).
  reflexivity.
Defined.

(** ** The static system descriptor *)

Lemma try_except_caught {A} (e c : exn) (handler : result A) :
  issubclass e c = true → try_except (Raise e) c handler = handler.
Proof. intros He. cbn. by rewrite He. Qed.

Lemma try_except_passed {A} (e c : exn) (handler : result A) :
  issubclass e c = false → try_except (Raise e) c handler = Raise e.
Proof. intros He. cbn. by rewrite He. Qed.

(** C2, as the code has it. The handler around the GPU query is
    [except ImportError].  When the import of the capability, or the query,
    raises [ImportError] or a class derived from it, the GPU field is
    "GPU: not supported" and the constructor goes on to the CPU name.  An
    exception of any other class passes the handler and leaves the
    constructor. *)
Theorem gpu_name_on_exception (h : host) (e : exn) :
  import_GPUtil h = Raise e
  ∨ (import_GPUtil h = Ok () ∧ getGPUs h = Raise e) →
  if issubclass e ImportError then
    get_gpu_name h = Ok "GPU: not supported"
    ∧ SystemMonitorApp_init h
      = (name ← get_cpu_name h;
         Ok (App (Np.zeros 60) (Np.zeros 60) "" initial_labels initial_labels
                 "GPU: not supported" name))
  else
    get_gpu_name h = Raise e ∧ SystemMonitorApp_init h = Raise e.
Proof.
  intros Hraise.
  assert (get_gpu_name h
          = try_except (Raise e) ImportError (Ok gpu_not_supported)) as Hgpu.
  { unfold get_gpu_name. by destruct Hraise as [-> | [-> ->]]. }
  unfold SystemMonitorApp_init. rewrite Hgpu.
  destruct (issubclass e ImportError) eqn:He.
  - by rewrite try_except_caught.
  - by rewrite try_except_passed.
Qed.

Lemma gpu_name_on_exception_witness :
  import_GPUtil linux_host = Raise ModuleNotFoundError
  ∧ gpu_name started = "GPU: not supported"
  ∧ get_gpu_name linux_host = Ok "GPU: not supported"
  ∧ SystemMonitorApp_init linux_host = Ok started.
Proof.
  split; [reflexivity|]. split; [reflexivity|].
  pose proof (gpu_name_on_exception linux_host ModuleNotFoundError
                (or_introl eq_refl)) as [Hgpu Hinit].
  split; [exact Hgpu|]. rewrite Hinit. reflexivity.
Defined.

(** C2, as the claim has it, fails: when the capability is present and its
    query raises [ValueError], the exception leaves the constructor and no
    GPU field is set. *)
Lemma gpu_query_error_surfaces :
  import_GPUtil broken_gpu_host = Ok ()
  ∧ getGPUs broken_gpu_host = Raise ValueError
  ∧ get_gpu_name broken_gpu_host ≠ Ok "GPU: not supported"
  ∧ get_gpu_name broken_gpu_host = Raise ValueError
  ∧ SystemMonitorApp_init broken_gpu_host = Raise ValueError.
Proof. repeat split. discriminate. Qed.

Lemma cpu_name_linux_absent lines :
  Forall (λ line, Str.contains "model name" line = false) lines →
  cpu_name_linux lines = Ok None.
Proof.
  induction 1 as [|line lines Hline _ IH]; [done|].
  cbn [cpu_name_linux]. by rewrite Hline.
Qed.

(** C9, as the code has it.  [get_cpu_name] returns "Unknown CPU" when the
    Windows query raises [CalledProcessError] or prints fewer than two
    non-blank lines, when on Linux opening /proc/cpuinfo raises
    [FileNotFoundError] or no line of it contains "model name", and on
    every other platform.  An exception of another class raised by the
    query or by the opening of the file is passed on to the caller. *)
Theorem cpu_name_on_failure (h : host) :
  (platform_system h = "Windows" →
     (∀ e, wmic_cpu_get_name h = Raise e →
        if issubclass e CalledProcessError
        then get_cpu_name h = Ok "Unknown CPU"
        else get_cpu_name h = Raise e)
     ∧ (∀ output, wmic_cpu_get_name h = Ok output →
          length (filter (λ line, Str.strip line ≠ "")
                    (Str.split "010"%char output)) ≤ 1 →
          get_cpu_name h = Ok "Unknown CPU"))
  ∧ (platform_system h = "Linux" →
     (∀ e, proc_cpuinfo h = Raise e →
        if issubclass e FileNotFoundError
        then get_cpu_name h = Ok "Unknown CPU"
        else get_cpu_name h = Raise e)
     ∧ (∀ lines, proc_cpuinfo h = Ok lines →
          Forall (λ line, Str.contains "model name" line = false) lines →
          get_cpu_name h = Ok "Unknown CPU"))
  ∧ (platform_system h ≠ "Windows" → platform_system h ≠ "Linux" →
     get_cpu_name h = Ok "Unknown CPU").
Proof.
  unfold get_cpu_name. split; [|split].
  - intros ->. rewrite bool_decide_eq_true_2 by done. split.
    + intros e ->. cbn [mbind result_bind bind].
      destruct (issubclass e CalledProcessError) eqn:He.
      * by rewrite try_except_caught.
      * by rewrite try_except_passed.
    + intros output -> Hlen. cbn [mbind result_bind bind try_except].
      unfold cpu_name_windows. rewrite length_fmap.
      by rewrite bool_decide_eq_false_2 by lia.
  - intros ->. rewrite bool_decide_eq_false_2 by done.
    rewrite bool_decide_eq_true_2 by done. split.
    + intros e ->. cbn [mbind result_bind bind].
      destruct (issubclass e FileNotFoundError) eqn:He.
      * by rewrite try_except_caught.
      * by rewrite try_except_passed.
    + intros lines -> Hlines. cbn [mbind result_bind bind].
      by rewrite cpu_name_linux_absent.
  - intros Hw Hl. by rewrite !bool_decide_eq_false_2 by done.
Qed.

Lemma cpu_name_on_failure_witness :
  get_cpu_name failed_wmic_host = Ok "Unknown CPU"
  ∧ get_cpu_name no_cpuinfo_host = Ok "Unknown CPU"
  ∧ get_cpu_name darwin_host = Ok "Unknown CPU".
Proof.
  split; [|split].
  - apply (proj1 (proj1 (cpu_name_on_failure failed_wmic_host) eq_refl)
             CalledProcessError eq_refl).
  - apply (proj1 (proj1 (proj2 (cpu_name_on_failure no_cpuinfo_host)) eq_refl)
             FileNotFoundError eq_refl).
  - apply (proj2 (proj2 (cpu_name_on_failure darwin_host))); cbn; discriminate.
Defined.

(** C9, as the claim has it, fails: on Windows without the wmic program
    the query raises [FileNotFoundError], which the handler for
    [CalledProcessError] lets through; the lookup raises to its caller and
    the constructor with it. *)
Lemma cpu_lookup_error_propagates :
  platform_system no_wmic_host = "Windows"
  ∧ wmic_cpu_get_name no_wmic_host = Raise FileNotFoundError
  ∧ get_cpu_name no_wmic_host ≠ Ok "Unknown CPU"
  ∧ get_cpu_name no_wmic_host = Raise FileNotFoundError
  ∧ SystemMonitorApp_init no_wmic_host = Raise FileNotFoundError.
Proof. repeat split. discriminate. Qed.

(** ** The tick as a whole *)

Lemma push_cpu_ok v s h :
  push (cpu_usage_history s) v = Ok h →
  push_cpu v s = (set_cpu_usage_history h s, Ok ()).
Proof. unfold push, push_cpu. by intros ->. Qed.

Lemma push_memory_ok v s h :
  push (memory_usage_history s) v = Ok h →
  push_memory v s = (set_memory_usage_history h s, Ok ()).
Proof. unfold push, push_memory. by intros ->. Qed.

(** The tick pushes the two samples onto their windows, whether or not the
    process lists can be computed afterwards. *)
Lemma update_system_info_pushes (m : metrics) (s : SystemMonitorApp) :
  1 ≤ length (cpu_usage_history s) → 1 ≤ length (memory_usage_history s) →
  push (cpu_usage_history s) (cpu_percent m)
  = Ok (cpu_usage_history (update_system_info m s).1)
  ∧ push (memory_usage_history s) (virtual_memory_percent m)
    = Ok (memory_usage_history (update_system_info m s).1).
Proof.
  intros Hc Hm.
  pose proof (push_drop _ (cpu_percent m) Hc) as Hpc.
  pose proof (push_drop _ (virtual_memory_percent m) Hm) as Hpm.
  rewrite Hpc, Hpm. unfold update_system_info, seq_method.
  rewrite (push_cpu_ok _ _ _ Hpc).
  rewrite (push_memory_ok _ (set_cpu_usage_history _ s) _ Hpm).
  cbn [update_system_info_label]. unfold update_process_info.
  by destruct (top_processes m) as [[tc tm]|e].
Qed.

(** ** The run of the timer *)

Lemma update_system_info_sampled (m : metrics) (s : SystemMonitorApp) :
  1 ≤ length (cpu_usage_history s) → 1 ≤ length (memory_usage_history s) →
  update_system_info m s = update_process_info m (sampled m s).
Proof.
  intros Hc Hm.
  pose proof (push_drop _ (cpu_percent m) Hc) as Hpc.
  pose proof (push_drop _ (virtual_memory_percent m) Hm) as Hpm.
  unfold update_system_info, seq_method.
  rewrite (push_cpu_ok _ _ _ Hpc).
  by rewrite (push_memory_ok _ (set_cpu_usage_history _ s) _ Hpm).
Qed.

Lemma update_process_info_frame (m : metrics) (s : SystemMonitorApp) :
  let s' := (update_process_info m s).1 in
  cpu_usage_history s' = cpu_usage_history s
  ∧ memory_usage_history s' = memory_usage_history s
  ∧ system_info_label s' = system_info_label s
  ∧ gpu_name s' = gpu_name s ∧ cpu_name s' = cpu_name s
  ∧ length (process_labels_cpu s') = length (process_labels_cpu s)
  ∧ length (process_labels_memory s') = length (process_labels_memory s).
Proof.
  unfold update_process_info.
  destruct (top_processes m) as [[tc tm]|e]; cbn; [|done].
  by rewrite !show_ranked_length.
Qed.

Lemma tick_shaped (m : metrics) (s : SystemMonitorApp) :
  shaped s →
  shaped (update_system_info m s).1
  ∧ gpu_name (update_system_info m s).1 = gpu_name s
  ∧ cpu_name (update_system_info m s).1 = cpu_name s.
Proof.
  intros (Hc & Hm & Hlc & Hlm).
  rewrite update_system_info_sampled by lia.
  destruct (update_process_info_frame m (sampled m s))
    as (Hc' & Hm' & _ & Hg & Hn & Hlc' & Hlm').
  unfold shaped. rewrite Hc', Hm', Hlc', Hlm', Hg, Hn.
  cbn [sampled cpu_usage_history memory_usage_history process_labels_cpu
       process_labels_memory gpu_name cpu_name].
  rewrite !length_app, !length_drop. cbn [length].
  repeat split; try done; lia.
Qed.

(** X2. From the start on, whatever the metrics library answers and whether
    ticks raise or not, the two windows hold 60 samples, each column has
    five labels, and the cached CPU and GPU names are the ones resolved at
    the start. *)
Theorem run_keeps_shape (h : host) (s : SystemMonitorApp) (ms : list metrics) :
  SystemMonitorApp_init h = Ok s →
  shaped (ticks ms s)
  ∧ gpu_name (ticks ms s) = gpu_name s
  ∧ cpu_name (ticks ms s) = cpu_name s.
Proof.
  intros Hinit.
  assert (shaped s) as Hs.
  { unfold SystemMonitorApp_init in Hinit.
    destruct (get_gpu_name h); cbn [mbind result_bind bind] in Hinit; [|done].
    destruct (get_cpu_name h); cbn [mbind result_bind bind] in Hinit; [|done].
    injection Hinit as <-. by repeat split. }
  clear Hinit. unfold ticks.
  induction ms as [|m ms IH] using rev_ind; [done|].
  rewrite foldl_app. cbn [foldl].
  destruct IH as (Hshape & Hg & Hn).
  destruct (tick_shaped m _ Hshape) as (Hshape' & Hg' & Hn').
  split; [done|]. split; congruence.
Qed.

Lemma run_keeps_shape_witness :
  shaped (ticks [busy_tick; exited_tick; busy_tick] started)
  ∧ gpu_name (ticks [busy_tick; exited_tick; busy_tick] started)
    = "GPU: not supported"
  ∧ cpu_name (ticks [busy_tick; exited_tick; busy_tick] started)
    = "Some CPU @ 3GHz".
Proof.
  apply (run_keeps_shape linux_host started
           [busy_tick; exited_tick; busy_tick]).
  reflexivity.
Defined.

(** X3. After any number of ticks each window is what pushing the samples of
    those ticks, in order, makes of it: the last [len(window)] elements of
    the old window followed by the samples. *)
Theorem run_pushes_samples (s : SystemMonitorApp) (ms : list metrics) :
  1 ≤ length (cpu_usage_history s) → 1 ≤ length (memory_usage_history s) →
  push_all (cpu_usage_history s) (cpu_percent <$> ms)
  = Ok (cpu_usage_history (ticks ms s))
  ∧ push_all (memory_usage_history s) (virtual_memory_percent <$> ms)
    = Ok (memory_usage_history (ticks ms s))
  ∧ cpu_usage_history (ticks ms s)
    = drop (length ms) (cpu_usage_history s ++ (cpu_percent <$> ms))
  ∧ memory_usage_history (ticks ms s)
    = drop (length ms)
        (memory_usage_history s ++ (virtual_memory_percent <$> ms)).
Proof.
  intros Hc Hm.
  assert (cpu_usage_history (ticks ms s)
          = drop (length ms) (cpu_usage_history s ++ (cpu_percent <$> ms))
          ∧ memory_usage_history (ticks ms s)
            = drop (length ms)
                (memory_usage_history s ++ (virtual_memory_percent <$> ms)))
    as [Hcpu Hmem].
  { unfold ticks. revert s Hc Hm.
    induction ms as [|m ms IH]; intros s Hc Hm.
    - cbn. by rewrite !app_nil_r.
    - cbn [foldl]. rewrite update_system_info_sampled by done.
      destruct (update_process_info_frame m (sampled m s))
        as (Hc' & Hm' & _).
      destruct (cpu_usage_history s) as [|c hc] eqn:Ehc; [cbn in Hc; lia|].
      destruct (memory_usage_history s) as [|x hm] eqn:Ehm; [cbn in Hm; lia|].
      destruct (IH (update_process_info m (sampled m s)).1) as [-> ->].
      + rewrite Hc'. cbn. rewrite length_app. cbn. lia.
      + rewrite Hm'. cbn. rewrite length_app. cbn. lia.
      + rewrite Hc', Hm'. cbn [sampled cpu_usage_history memory_usage_history].
        rewrite Ehc, Ehm. cbn [drop length fmap list_fmap].
        rewrite <- !app_comm_cons. cbn [drop].
        by rewrite <- !app_assoc. }
  rewrite !push_all_drop, !length_fmap by done.
  by rewrite Hcpu, Hmem.
Qed.

Lemma run_pushes_samples_witness :
  push_all (cpu_usage_history started) (cpu_percent <$> [busy_tick; exited_tick])
  = Ok (cpu_usage_history (ticks [busy_tick; exited_tick] started))
  ∧ cpu_usage_history (ticks [busy_tick; exited_tick] started)
    = replicate 58 0%Q ++ [37; 12]%Q.
Proof.
  split; [|vm_compute; reflexivity].
  apply (run_pushes_samples started [busy_tick; exited_tick]); cbn; lia.
Defined.

(** X4. Once a window has received at least as many samples as it has
    elements, it holds the latest samples and nothing else, oldest first. *)
Theorem window_holds_latest (w vs : list Q) :
  1 ≤ length w → length w ≤ length vs →
  push_all w vs = Ok (drop (length vs - length w) vs).
Proof.
  intros Hw Hvs. rewrite push_all_drop by done.
  by rewrite drop_app_ge by lia.
Qed.

Lemma window_holds_latest_witness :
  push_all [0; 0]%Q [1; 2; 3]%Q = Ok [2; 3]%Q.
Proof. apply (window_holds_latest [0; 0]%Q [1; 2; 3]%Q); cbn; lia. Defined.

(** ** More on the ranker *)

Section sorted_again.
Context {A : Type} (key : A → Q).
Implicit Types (x y : A) (l : list A).

Lemma insert_asc_head x l :
  HdRel (key_le key) x l → insert_asc key x l = x :: l.
Proof.
  destruct 1 as [|y l Hxy]; [done|]. cbn [insert_asc].
  apply Qltb_false in Hxy. by rewrite Hxy.
Qed.

Lemma sort_asc_id l : Sorted (key_le key) l → sort_asc key l = l.
Proof.
  induction 1 as [|x l Hl IH Hx]; [done|].
  change (sort_asc key (x :: l)) with (insert_asc key x (sort_asc key l)).
  rewrite IH. by apply insert_asc_head.
Qed.

Lemma sorted_id l : Sorted (key_ge key) l → sorted key l true = l.
Proof.
  intros Hl. cbn [sorted].
  rewrite sort_asc_id; [apply reverse_involutive|].
  apply (Sorted_reverse (key_ge key)), Hl.
Qed.
End sorted_again.

(** X5. A snapshot already in descending order of the key comes back as it
    is, so sorting and ranking are idempotent: ranking a ranked list again
    changes nothing. *)
Theorem rank_idempotent {A : Type} (key : A → Q) (l : list A) (k : nat) :
  (Sorted (λ x y, key y <= key x)%Q l → sorted key l true = l)
  ∧ sorted key (sorted key l true) true = sorted key l true
  ∧ rank key (rank key l k) k = rank key l k.
Proof.
  pose proof (sorted_descending key l) as Hdesc.
  split; [apply sorted_id|]. split.
  - apply sorted_id, StronglySorted_Sorted, Hdesc.
  - unfold rank at 1. rewrite sorted_id.
    + unfold rank. rewrite take_take. f_equal. lia.
    + apply StronglySorted_Sorted. unfold rank.
      rewrite <- (take_drop k (sorted key l true)) in Hdesc.
      by apply StronglySorted_app_1_l in Hdesc.
Qed.

Lemma rank_idempotent_witness :
  sorted entry_cpu [("A", 90, 100); ("C", 90, 50); ("B", 50, 500)]%Q true
  = [("A", 90, 100); ("C", 90, 50); ("B", 50, 500)]%Q.
Proof.
  apply (proj1 (rank_idempotent entry_cpu
                  [("A", 90, 100); ("C", 90, 50); ("B", 50, 500)]%Q 0)).
  repeat constructor; cbn; discriminate.
Defined.

Lemma rank_descending {A : Type} (key : A → Q) (l : list A) (k : nat) :
  StronglySorted (key_ge key) (rank key l k).
Proof.
  pose proof (sorted_descending key l) as Hdesc.
  rewrite <- (take_drop k (sorted key l true)) in Hdesc.
  by apply StronglySorted_app_1_l in Hdesc.
Qed.

Lemma normalize_length n top top' :
  normalize n top = Ok top' → length top' = length top.
Proof.
  intros Hn%normalize_names.
  by rewrite <- (length_fmap entry_name top'), Hn, length_fmap.
Qed.

(** X6. The two lists of a tick have the same number of entries: five, or the
    number of processes not named "System Idle Process" when that is
    less. *)
Theorem ranked_lists_same_length (m : metrics) (tc tm : list entry) :
  top_processes m = Ok (tc, tm) →
  length tc = min 5 (length (filter not_idle (process_iter m)))
  ∧ length tm = length tc.
Proof.
  intros (processes & Hps & Hn & ->)%top_processes_Ok.
  apply processes_of_Ok, Forall2_length in Hps.
  apply normalize_length in Hn.
  rewrite Hn, !rank_length, Hps. done.
Qed.

Lemma ranked_lists_same_length_witness :
  length busy_tick_ranked.1 = 2 ∧ length busy_tick_ranked.2 = 2.
Proof.
  destruct (ranked_lists_same_length busy_tick
              busy_tick_ranked.1 busy_tick_ranked.2 eq_refl) as [H1 H2].
  split; [exact H1 | by rewrite H2, H1].
Defined.

(** X7. With a positive core count both lists of a tick are in descending
    order of the value they show: the divided CPU values of the first, the
    memory values of the second. *)
Theorem ranked_lists_descending (m : metrics) (tc tm : list entry) :
  top_processes m = Ok (tc, tm) → (0 < cpu_count m)%Z →
  StronglySorted (λ x y, entry_cpu y <= entry_cpu x)%Q tc
  ∧ StronglySorted (λ x y, entry_memory y <= entry_memory x)%Q tm.
Proof.
  intros (processes & Hps & Hn & ->)%top_processes_Ok Hcores.
  rewrite normalize_Ok in Hn by lia. injection Hn as <-.
  split; [|apply rank_descending].
  apply (StronglySorted_fmap _ (key_ge entry_cpu)); [|apply rank_descending].
  intros x y Hxy. by apply round64_div_mono.
Qed.

Lemma ranked_lists_descending_witness :
  StronglySorted (λ x y, entry_cpu y <= entry_cpu x)%Q busy_tick_ranked.1
  ∧ StronglySorted (λ x y, entry_memory y <= entry_memory x)%Q
      busy_tick_ranked.2.
Proof.
  apply (ranked_lists_descending busy_tick); [reflexivity | reflexivity].
Defined.



(** ** More on the snapshot *)

(** X9. The answer of [memory_info()] for a process named "System Idle
    Process" is never looked at: dropping those processes from the
    enumeration changes neither the snapshot nor the exception. *)
Theorem idle_processes_not_fetched (ps : list process) :
  processes_of (filter not_idle ps) = processes_of ps.
Proof.
  induction ps as [|p ps IH]; [done|].
  rewrite filter_cons. cbn [processes_of]. unfold not_idle at 1.
  case_decide as Hp.
  - cbn [processes_of]. rewrite bool_decide_eq_true_2 by done. by rewrite IH.
  - rewrite bool_decide_eq_false_2 by (intros Hne; exact (Hne Hp)).
    exact IH.
Qed.

(** X10. The exception of a tick's enumeration is that of the first process,
    in enumeration order, whose [memory_info()] fails; the processes after
    it are not asked. *)
Theorem first_failed_fetch_raises (before after : list process) (p : process)
    (e : exn) :
  Forall (λ q, not_idle q → is_ok (memory_info_rss q) = true) before →
  not_idle p → memory_info_rss p = Raise e →
  processes_of (before ++ p :: after) = Raise e.
Proof.
  intros Hbefore Hp He.
  induction Hbefore as [|q before Hq _ IH]; cbn [app processes_of].
  - rewrite bool_decide_eq_true_2 by done. by rewrite He.
  - case_bool_decide as Hidle; [|done].
    specialize (Hq Hidle). destruct (memory_info_rss q); [|done].
    cbn [mbind result_bind bind]. by rewrite IH.
Qed.

Lemma first_failed_fetch_raises_witness :
  processes_of (process_iter exited_tick) = Raise NoSuchProcess.
Proof.
  apply (first_failed_fetch_raises
           [Build_process "init" 1 (Ok (4 * 1024 ^ 2)%Z)]
           [Build_process "bash" 2 (Ok (6 * 1024 ^ 2)%Z)]
           (Build_process "gone" 10 (Raise NoSuchProcess)) NoSuchProcess).
  - by repeat constructor.
  - vm_compute. discriminate.
  - reflexivity.
Defined.

(** ** More on the labels *)

Section show_ranked_closed.
Context (text : entry → string).
Implicit Types (top : list entry) (labels : list string) (i : nat).

Lemma show_ranked_nil i top : show_ranked text i top [] = [].
Proof. revert i. induction top as [|x top IH]; intros i; [done|]. apply IH. Qed.

Lemma show_ranked_shift pre i top labels :
  show_ranked text (length pre + i) top (pre ++ labels)
  = pre ++ show_ranked text i top labels.
Proof.
  revert i labels. induction top as [|x top IH]; intros i labels; [done|].
  cbn [show_ranked]. rewrite length_app, <- Nat.add_succ_r.
  case_bool_decide; case_bool_decide; try lia.
  - rewrite insert_app_r. apply IH.
  - apply IH.
Qed.

Lemma show_ranked_cons x top label labels :
  show_ranked text 0 (x :: top) (label :: labels)
  = text x :: show_ranked text 0 top labels.
Proof.
  cbn [show_ranked length]. rewrite bool_decide_eq_true_2 by lia.
  apply (show_ranked_shift [text x] 0).
Qed.

Lemma show_ranked_closed_form top labels :
  show_ranked text 0 top labels
  = (text <$> take (length labels) top) ++ drop (length top) labels.
Proof.
  revert labels. induction top as [|x top IH]; intros labels.
  - cbn. by rewrite take_nil.
  - destruct labels as [|label labels]; [apply show_ranked_nil|].
    rewrite show_ranked_cons, IH. done.
Qed.
End show_ranked_closed.

(** X11. With five labels per column every ranked entry of a tick is shown: the
    column afterwards is the texts of the ranked entries, in rank order,
    followed by the old labels from that rank on. *)
Theorem labels_after_tick (m : metrics) (s : SystemMonitorApp)
    (tc tm : list entry) :
  top_processes m = Ok (tc, tm) →
  length (process_labels_cpu s) = 5 → length (process_labels_memory s) = 5 →
  process_labels_cpu (update_process_info m s).1
  = (cpu_text <$> tc) ++ drop (length tc) (process_labels_cpu s)
  ∧ process_labels_memory (update_process_info m s).1
    = (memory_text <$> tm) ++ drop (length tm) (process_labels_memory s).
Proof.
  intros Htop Hlc Hlm. unfold update_process_info. rewrite Htop.
  cbn [fst set_process_labels process_labels_cpu process_labels_memory].
  apply top_processes_Ok in Htop as (processes & _ & Hn & ->).
  apply normalize_length in Hn. rewrite rank_length in Hn.
  rewrite !show_ranked_closed_form, Hlc, Hlm.
  rewrite !take_ge; [done| |]; rewrite ?rank_length; lia.
Qed.

Lemma labels_after_tick_witness :
  process_labels_cpu (update_process_info busy_tick started).1
  = (cpu_text <$> busy_tick_ranked.1)
    ++ drop (length busy_tick_ranked.1) (process_labels_cpu started).
Proof.
  apply (labels_after_tick busy_tick started
           busy_tick_ranked.1 busy_tick_ranked.2); reflexivity.
Defined.

(** ** Strings *)

Lemma append_cons c s t : String c s +:+ t = String c (s +:+ t).
Proof. reflexivity. Qed.

Lemma append_assoc s t u : (s +:+ t) +:+ u = s +:+ t +:+ u.
Proof.
  induction s as [|c s IH]; [reflexivity|].
  by rewrite !append_cons, IH.
Qed.

Lemma rev_app_append s t : String.rev_app s t = String.rev s +:+ t.
Proof.
  unfold String.rev. revert t. induction s as [|c s IH]; intros t; [done|].
  cbn [String.rev_app]. rewrite (IH (String c t)), (IH (String c "")).
  by rewrite append_assoc.
Qed.

Lemma rev_cons c s : String.rev (String c s) = String.rev s +:+ String c "".
Proof. unfold String.rev at 1. cbn [String.rev_app]. apply rev_app_append. Qed.

Lemma rev_snoc c s : String.rev (s +:+ String c "") = String c (String.rev s).
Proof.
  induction s as [|a s IH]; [reflexivity|].
  by rewrite append_cons, !rev_cons, IH, append_cons.
Qed.

Lemma rev_rev s : String.rev (String.rev s) = s.
Proof.
  induction s as [|c s IH]; [reflexivity|]. by rewrite rev_cons, rev_snoc, IH.
Qed.

Lemma last_char_snoc c s : last_char (s +:+ String c "") = Some c.
Proof.
  induction s as [|a s IH]; [reflexivity|].
  rewrite append_cons. cbn [last_char]. rewrite IH.
  by destruct s.
Qed.

Lemma last_char_rev s : last_char (String.rev s) = first_char s.
Proof. destruct s as [|c s]; [done|]. rewrite rev_cons. apply last_char_snoc. Qed.

Lemma first_char_rev s : first_char (String.rev s) = last_char s.
Proof. by rewrite <- last_char_rev, rev_rev. Qed.

Lemma lstrip_first s c :
  first_char (Str.lstrip s) = Some c → Str.isspace c = false.
Proof.
  induction s as [|a s IH]; [done|]. cbn [Str.lstrip].
  destruct (Str.isspace a) eqn:Ha; [done|]. by intros [= <-].
Qed.

Lemma lstrip_snoc s c :
  Str.isspace c = false → ∃ w, Str.lstrip (s +:+ String c "") = w +:+ String c "".
Proof.
  intros Hc. induction s as [|a s IH].
  - exists "". change ("" +:+ String c "") with (String c "").
    cbn [Str.lstrip]. by rewrite Hc.
  - rewrite append_cons. cbn [Str.lstrip].
    destruct (Str.isspace a); [done|]. by exists (String a s).
Qed.

Lemma lstrip_id s :
  (∀ c, first_char s = Some c → Str.isspace c = false) → Str.lstrip s = s.
Proof.
  destruct s as [|a s]; [done|]. intros Hs. cbn [Str.lstrip].
  by rewrite (Hs a).
Qed.

Lemma strip_is_trimmed s : trimmed (Str.strip s).
Proof.
  unfold Str.strip, Str.rstrip. split; intros c.
  - rewrite first_char_rev.
    destruct (Str.lstrip s) as [|a t] eqn:Ht; [done|].
    assert (Str.isspace a = false) as Ha by (apply (lstrip_first s); by rewrite Ht).
    rewrite rev_cons. destruct (lstrip_snoc (String.rev t) a Ha) as [w ->].
    rewrite last_char_snoc. by intros [= <-].
  - rewrite last_char_rev. apply lstrip_first.
Qed.

Lemma strip_of_trimmed s : trimmed s → Str.strip s = s.
Proof.
  intros [Hfirst Hlast]. unfold Str.strip, Str.rstrip.
  rewrite (lstrip_id s) by done.
  rewrite lstrip_id; [apply rev_rev|].
  intros c. rewrite first_char_rev. apply Hlast.
Qed.

(** X12. [strip] leaves no white space at either end and is idempotent: a
    string without white space at its ends is returned as it is. *)
Theorem strip_idempotent (s : string) :
  trimmed (Str.strip s)
  ∧ Str.strip (Str.strip s) = Str.strip s
  ∧ (trimmed s → Str.strip s = s).
Proof.
  split; [apply strip_is_trimmed|]. split; [|apply strip_of_trimmed].
  apply strip_of_trimmed, strip_is_trimmed.
Qed.

Lemma strip_idempotent_witness : Str.strip "Intel i7" = "Intel i7".
Proof.
  apply (strip_idempotent "Intel i7").
  split; intros c [= <-]; reflexivity.
Defined.

Lemma has_char_cons sep c s :
  has_char sep (String c s) = bool_decide (c = sep) || has_char sep s.
Proof.
  unfold has_char. cbn [Str.contains String.prefix].
  destruct (ascii_dec sep c) as [->|Hne].
  - rewrite bool_decide_eq_true_2 by done. by destruct s.
  - by rewrite bool_decide_eq_false_2 by congruence.
Qed.

Lemma split_not_nil sep s : Str.split sep s ≠ [].
Proof.
  destruct s as [|c s]; [done|]. cbn [Str.split].
  case_bool_decide; [done|]. by destruct (Str.split sep s).
Qed.

Lemma split_without sep s : has_char sep s = false → Str.split sep s = [s].
Proof.
  induction s as [|c s IH]; [done|].
  rewrite has_char_cons. intros [Hc Hs]%orb_false_elim.
  cbn [Str.split]. rewrite Hc, (IH Hs). done.
Qed.

Lemma split_append sep a t :
  has_char sep a = false →
  Str.split sep (a +:+ String sep t) = a :: Str.split sep t.
Proof.
  induction a as [|c a IH].
  - intros _. change ("" +:+ String sep t) with (String sep t).
    cbn [Str.split]. by rewrite bool_decide_eq_true_2.
  - rewrite has_char_cons. intros [Hc Ha]%orb_false_elim.
    rewrite append_cons. cbn [Str.split]. by rewrite Hc, (IH Ha).
Qed.

(** X13. [split] and [join] are inverse: joining the pieces with the separator
    gives the string back; there is always at least one piece and no piece
    contains the separator. *)
Theorem split_join (sep : ascii) (s : string) :
  join sep (Str.split sep s) = s
  ∧ Str.split sep s ≠ []
  ∧ Forall (λ piece, has_char sep piece = false) (Str.split sep s).
Proof.
  split; [|split; [apply split_not_nil|]].
  - induction s as [|c s IH]; [done|]. cbn [Str.split].
    pose proof (split_not_nil sep s) as Hne.
    case_bool_decide as Hc.
    + subst c. cbn [join]. destruct (Str.split sep s); [done|]. by rewrite IH.
    + destruct (Str.split sep s) as [|piece pieces]; [done|].
      cbn [join] in *. destruct pieces; [by rewrite IH|].
      by rewrite append_cons, IH.
  - induction s as [|c s IH]; [by repeat constructor|]. cbn [Str.split].
    pose proof (split_not_nil sep s) as Hne.
    case_bool_decide as Hc.
    + by constructor.
    + destruct (Str.split sep s) as [|piece pieces]; [done|].
      inv IH. constructor; [|done].
      rewrite has_char_cons, bool_decide_eq_false_2 by done. done.
Qed.

(** ** More on the static system descriptor *)

(** X14. The GPU lookup never raises [ImportError] or a class derived from it:
    what it raises was raised by the import or by the query and is of
    another class.  What it returns is "GPU: not supported",
    "GPU: Not found", or the name of the first GPU the query listed. *)
Theorem gpu_name_outcomes (h : host) :
  (∀ e, get_gpu_name h = Raise e →
     issubclass e ImportError = false
     ∧ (import_GPUtil h = Raise e ∨ getGPUs h = Raise e))
  ∧ (∀ name, get_gpu_name h = Ok name →
       name = "GPU: not supported" ∨ name = "GPU: Not found"
       ∨ ∃ names, getGPUs h = Ok (name :: names)).
Proof.
  unfold get_gpu_name. split.
  - intros e. destruct (import_GPUtil h) as [[]|e1] eqn:Himport;
      cbn [mbind result_bind bind try_except].
    + destruct (getGPUs h) as [gpus|e2]; cbn [mbind result_bind bind try_except]; [done|].
      destruct (issubclass e2 ImportError) eqn:He2; [done|].
      intros [= <-]. auto.
    + destruct (issubclass e1 ImportError) eqn:He1; [done|].
      intros [= <-]. auto.
  - intros name. destruct (import_GPUtil h) as [[]|e1];
      cbn [mbind result_bind bind try_except].
    + destruct (getGPUs h) as [[|gpu gpus]|e2]; cbn [mbind result_bind bind try_except].
      * intros [= <-]. auto.
      * intros [= <-]. eauto.
      * destruct (issubclass e2 ImportError); [|done]. intros [= <-]. auto.
    + destruct (issubclass e1 ImportError); [|done]. intros [= <-]. auto.
Qed.

Lemma gpu_name_outcomes_witness :
  issubclass ValueError ImportError = false
  ∧ (import_GPUtil broken_gpu_host = Raise ValueError
     ∨ getGPUs broken_gpu_host = Raise ValueError).
Proof.
  apply (proj1 (gpu_name_outcomes broken_gpu_host) ValueError). reflexivity.
Defined.

Lemma cpu_name_linux_raises lines e :
  cpu_name_linux lines = Raise e → e = IndexError.
Proof.
  induction lines as [|line lines IH]; [done|]. cbn [cpu_name_linux].
  destruct (Str.contains "model name" line); [|done].
  destruct (Str.split ":" line !! 1); [done|]. by intros [= <-].
Qed.

(** X15. The CPU name lookup raises only what its handlers let through: on
    Windows an exception of the query that is not [CalledProcessError]; on
    Linux an exception of the opening of the file that is not
    [FileNotFoundError], or [IndexError]; on other platforms nothing. *)
Theorem cpu_name_raises_only (h : host) (e : exn) :
  get_cpu_name h = Raise e →
  (platform_system h = "Windows" ∧ wmic_cpu_get_name h = Raise e
     ∧ issubclass e CalledProcessError = false)
  ∨ (platform_system h = "Linux" ∧ issubclass e FileNotFoundError = false
     ∧ (proc_cpuinfo h = Raise e ∨ e = IndexError)).
Proof.
  unfold get_cpu_name. case_bool_decide as Hw; [|case_bool_decide as Hl].
  - destruct (wmic_cpu_get_name h) as [output|e1];
      cbn [mbind result_bind bind try_except]; [done|].
    destruct (issubclass e1 CalledProcessError) eqn:He1; [done|].
    intros [= <-]. by left.
  - destruct (proc_cpuinfo h) as [lines|e1];
      cbn [mbind result_bind bind try_except].
    + destruct (cpu_name_linux lines) as [found|e1] eqn:Hlines; [done|].
      apply cpu_name_linux_raises in Hlines as ->. cbn.
      intros [= <-]. right. auto.
    + destruct (issubclass e1 FileNotFoundError) eqn:He1; [done|].
      cbn. intros [= <-]. right. auto.
  - done.
Qed.

Lemma cpu_name_raises_only_witness :
  platform_system no_wmic_host = "Windows"
  ∧ wmic_cpu_get_name no_wmic_host = Raise FileNotFoundError
  ∧ issubclass FileNotFoundError CalledProcessError = false.
Proof.
  destruct (cpu_name_raises_only no_wmic_host FileNotFoundError eq_refl)
    as [Hw | (Hl & _)]; [exact Hw | discriminate Hl].
Defined.

Lemma unknown_cpu_trimmed : trimmed unknown_cpu.
Proof. split; intros c [= <-]; reflexivity. Qed.

Lemma cpu_name_windows_cases output :
  cpu_name_windows output = unknown_cpu
  ∨ ∃ line, cpu_name_windows output = Str.strip line ∧ Str.strip line ≠ "".
Proof.
  unfold cpu_name_windows. case_bool_decide; [|by left].
  rewrite list_lookup_fmap.
  destruct (filter _ _ !! 1) as [line|] eqn:Hline; [|by left].
  right. exists line. split; [done|].
  by apply list_elem_of_lookup_2, list_elem_of_filter in Hline as [Hline _].
Qed.

Lemma cpu_name_linux_trimmed lines name :
  cpu_name_linux lines = Ok (Some name) → trimmed name.
Proof.
  induction lines as [|line lines IH]; [done|]. cbn [cpu_name_linux].
  destruct (Str.contains "model name" line); [|done].
  destruct (Str.split ":" line !! 1); [|done].
  intros [= <-]. apply strip_is_trimmed.
Qed.

(** X16. Whatever the host answers, a CPU name that the lookup returns has no
    white space at its ends; on Windows it is also never empty. *)
Theorem cpu_name_is_trimmed (h : host) (name : string) :
  get_cpu_name h = Ok name →
  trimmed name ∧ (platform_system h = "Windows" → name ≠ "").
Proof.
  unfold get_cpu_name. case_bool_decide as Hw; [|case_bool_decide as Hl].
  - destruct (wmic_cpu_get_name h) as [output|e];
      cbn [mbind result_bind bind try_except].
    + intros [= <-].
      destruct (cpu_name_windows_cases output) as [-> | (line & -> & Hline)].
      * split; [apply unknown_cpu_trimmed | done].
      * split; [apply strip_is_trimmed | done].
    + destruct (issubclass e CalledProcessError); [|done].
      intros [= <-]. split; [apply unknown_cpu_trimmed | done].
  - intros Hname. split; [|done]. revert Hname.
    destruct (proc_cpuinfo h) as [lines|e];
      cbn [mbind result_bind bind try_except].
    + destruct (cpu_name_linux lines) as [[found|]|e] eqn:Hlines; cbn.
      * intros [= <-]. by apply (cpu_name_linux_trimmed lines).
      * intros [= <-]. apply unknown_cpu_trimmed.
      * apply cpu_name_linux_raises in Hlines as ->. by vm_compute.
    + destruct (issubclass e FileNotFoundError); cbn; [|done].
      intros [= <-]. apply unknown_cpu_trimmed.
  - intros [= <-]. split; [apply unknown_cpu_trimmed | done].
Qed.

Lemma cpu_name_is_trimmed_witness :
  get_cpu_name linux_host = Ok "Some CPU @ 3GHz" ∧ trimmed "Some CPU @ 3GHz".
Proof.
  split; [reflexivity|].
  apply (cpu_name_is_trimmed linux_host "Some CPU @ 3GHz"). reflexivity.
Defined.

Lemma cpu_name_linux_first before line after :
  Forall (λ l, Str.contains "model name" l = false) before →
  Str.contains "model name" line = true →
  cpu_name_linux (before ++ line :: after)
  = match Str.split ":" line !! 1 with
    | Some field => Ok (Some (Str.strip field))
    | None => Raise IndexError
    end.
Proof.
  intros Hbefore Hline.
  induction Hbefore as [|l before Hl _ IH]; cbn [app cpu_name_linux].
  - by rewrite Hline.
  - by rewrite Hl.
Qed.

(** X17. On Linux the first line of /proc/cpuinfo that contains "model name"
    decides, whatever follows it.  The name is the text between the first
    colon of that line and the second one, or the end of the line, without
    the white space at its ends; when the line has no colon the lookup
    raises [IndexError]. *)
Theorem cpu_name_from_cpuinfo (h : host) (before after : list string)
    (line : string) :
  platform_system h = "Linux" →
  proc_cpuinfo h = Ok (before ++ line :: after) →
  Forall (λ l, Str.contains "model name" l = false) before →
  Str.contains "model name" line = true →
  (has_char ":" line = false → get_cpu_name h = Raise IndexError)
  ∧ (∀ a b, has_char ":" a = false → has_char ":" b = false →
       line = a +:+ ":" +:+ b → get_cpu_name h = Ok (Str.strip b))
  ∧ (∀ a b c, has_char ":" a = false → has_char ":" b = false →
       line = a +:+ ":" +:+ b +:+ ":" +:+ c →
       get_cpu_name h = Ok (Str.strip b)).
Proof.
  intros Hl Hfile Hbefore Hline. unfold get_cpu_name.
  rewrite Hl, bool_decide_eq_false_2, bool_decide_eq_true_2 by done.
  rewrite Hfile. cbn [mbind result_bind bind].
  rewrite (cpu_name_linux_first before line after Hbefore Hline).
  split; [|split].
  - intros Hnone. by rewrite split_without.
  - intros a b Ha Hb ->. change (":" +:+ b) with (String ":" b).
    by rewrite split_append, split_without.
  - intros a b c Ha Hb ->.
    change (":" +:+ b +:+ ":" +:+ c) with (String ":" (b +:+ String ":" c)).
    by rewrite !split_append.
Qed.

Lemma cpu_name_from_cpuinfo_witness :
  get_cpu_name linux_host = Ok (Str.strip (" Some CPU @ 3GHz" +:+ newline)).
Proof.
  apply (cpu_name_from_cpuinfo linux_host ["processor : 0" +:+ newline] []
           ("model name : Some CPU @ 3GHz" +:+ newline)
           eq_refl eq_refl)
    with (a := "model name "); try reflexivity.
  by repeat constructor.
Defined.

(** ** Rounding of the printed values *)

(** X18. The integer the [.2f] conversion rounds to is a nearest one: it is
    within one half of the scaled value, and when the value lies exactly
    between two integers the even one is taken. *)
Theorem round_half_even_nearest (q : Q) :
  (Qabs (q - inject_Z (round_half_even q)) <= 1 # 2)%Q
  ∧ ((Qabs (q - inject_Z (round_half_even q)) == 1 # 2)%Q →
     Z.even (round_half_even q) = true).
Proof.
  pose proof (Qfloor_le q) as Hlo. pose proof (Qlt_floor q) as Hhi.
  rewrite inject_Z_plus in Hhi. change (inject_Z 1) with 1%Q in Hhi.
  unfold round_half_even.
  destruct (q - inject_Z (Qfloor q) ?= 1 # 2)%Q eqn:Hcmp.
  - apply Qeq_alt in Hcmp.
    destruct (Z.even (Qfloor q)) eqn:Heven.
    + split; [|done]. apply Qabs_Qle_condition.
      revert Hlo Hhi Hcmp. generalize (inject_Z (Qfloor q)). intros f ???.
      split; lra.
    + split.
      * rewrite inject_Z_plus. change (inject_Z 1) with 1%Q.
        apply Qabs_Qle_condition.
        revert Hlo Hhi Hcmp. generalize (inject_Z (Qfloor q)). intros f ???.
        split; lra.
      * intros _. rewrite Z.even_add, Heven. reflexivity.
  - apply Qlt_alt in Hcmp. split.
    + apply Qabs_Qle_condition.
      revert Hlo Hhi Hcmp. generalize (inject_Z (Qfloor q)). intros f ???.
      split; lra.
    + intros Habs. exfalso. revert Hlo Hhi Hcmp Habs.
      generalize (inject_Z (Qfloor q)). intros f ??? Habs.
      rewrite Qabs_pos in Habs by lra. lra.
  - apply Qgt_alt in Hcmp. rewrite inject_Z_plus.
    change (inject_Z 1) with 1%Q. split.
    + apply Qabs_Qle_condition.
      revert Hlo Hhi Hcmp. generalize (inject_Z (Qfloor q)). intros f ???.
      split; lra.
    + intros Habs. exfalso. revert Hlo Hhi Hcmp Habs.
      generalize (inject_Z (Qfloor q)). intros f ??? Habs.
      rewrite Qabs_neg in Habs by lra. lra.
Qed.

Lemma round_half_even_nearest_witness :
  Z.even (round_half_even (5 # 2)) = true ∧ round_half_even (5 # 2) = 2%Z.
Proof.
  split; [|reflexivity].
  apply (round_half_even_nearest (5 # 2)). reflexivity.
Defined.

(** ** All answers of the metrics library *)

Section raw_sorted_facts.
Context {A : Type} (key : A → option Q) (k : A → Q).
Implicit Types (x : A) (l : list A).

Lemma raw_insert_asc_keyed x l :
  key x = Some (k x) → Raw.keyed key k l →
  Raw.insert_asc key x l = Ok (insert_asc k x l).
Proof.
  intros Hx Hl. induction Hl as [|y l Hy _ IH]; [done|].
  cbn [Raw.insert_asc insert_asc]. rewrite Hx, Hy.
  cbn [Raw.lt mbind result_bind bind].
  destruct (Qltb (k y) (k x)); [|done]. by rewrite IH.
Qed.

Lemma raw_sort_asc_keyed l : Raw.keyed key k l → Raw.sort_asc key l = Ok (sort_asc k l).
Proof.
  induction 1 as [|x l Hx Hl IH]; [done|].
  change (Raw.sort_asc key (x :: l))
    with (Raw.sort_asc key l ≫= Raw.insert_asc key x).
  rewrite IH. cbn [mbind result_bind bind].
  apply raw_insert_asc_keyed; [done|].
  unfold Raw.keyed. by rewrite (sort_asc_perm k l).
Qed.

Lemma raw_rank_keyed l n : Raw.keyed key k l → Raw.rank key l n = Ok (rank k l n).
Proof.
  intros Hl. unfold Raw.rank, Raw.sorted, rank, sorted.
  rewrite raw_sort_asc_keyed; [done|].
  unfold Raw.keyed. by rewrite reverse_Permutation.
Qed.
End raw_sorted_facts.

Lemma raw_processes_of_Ok ps es :
  Raw.processes_of ps = Ok es
  ↔ Forall2 Raw.fetched (filter Raw.not_idle ps) es.
Proof.
  revert es. induction ps as [|p ps IH]; intros es; cbn [Raw.processes_of].
  - rewrite filter_nil. split; [intros [= <-]; constructor | by inv 1].
  - rewrite filter_cons. unfold Raw.not_idle at 1.
    destruct (decide (Raw.info_name p ≠ Some idle_name)) as [Hp|Hp].
    + rewrite bool_decide_eq_true_2 by done.
      destruct (Raw.memory_info_rss p) as [rss|e] eqn:Hrss;
        cbn [mbind result_bind bind].
      * destruct (Raw.processes_of ps) as [rest|e] eqn:Hps;
          cbn [mbind result_bind bind].
        -- split.
           ++ intros [= <-]. constructor; [by exists rss | by apply IH].
           ++ inv 1 as [|?? x es' (rss' & Hrss' & ->) Hrest].
              apply IH in Hrest. rewrite Hrss in Hrss'. by simplify_eq.
        -- split; [done|]. inv 1 as [|?? x es' _ Hrest].
           apply IH in Hrest. done.
      * split; [done|]. inv 1 as [|?? x es' (rss' & Hrss' & _) _]. congruence.
    + rewrite bool_decide_eq_false_2 by done. apply IH.
Qed.

Lemma raw_processes_of_Raise ps p e :
  p ∈ ps → Raw.not_idle p → Raw.memory_info_rss p = Raise e →
  ∃ e', Raw.processes_of ps = Raise e'.
Proof.
  intros Hin Hp He.
  destruct (Raw.processes_of ps) as [es|e'] eqn:Hps; [|by eexists].
  apply raw_processes_of_Ok in Hps.
  assert (p ∈ filter Raw.not_idle ps) as Hin' by (by apply list_elem_of_filter).
  apply list_elem_of_lookup in Hin' as [i Hi].
  destruct (Forall2_lookup_l _ _ _ _ _ Hps Hi) as (x & _ & rss & Hrss & _).
  congruence.
Qed.

Lemma raw_normalize_Ok n top :
  Forall (λ x, is_Some (Raw.entry_cpu x)) top → n ≠ 0%Z →
  Raw.normalize (Some n) top = Ok (Raw.normalized n <$> top).
Proof.
  intros Htop Hn.
  induction Htop as [|[[name cpu] memory] top [c Hc] _ IH]; [done|].
  cbn in Hc. subst cpu. cbn [Raw.normalize Raw.truediv]. unfold truediv.
  rewrite bool_decide_eq_false_2 by done.
  cbn [mbind result_bind bind]. by rewrite IH.
Qed.

Lemma raw_top_processes_present m processes n :
  Raw.processes_of (Raw.process_iter m) = Ok processes →
  Forall (λ x, is_Some (Raw.entry_cpu x)) processes →
  Raw.cpu_count m = Some n → n ≠ 0%Z →
  Raw.top_processes m
  = Ok (Raw.normalized n <$> rank Raw.cpu_key processes 5,
        rank Raw.entry_memory processes 5).
Proof.
  intros Hps Hcpu Hcount Hn. unfold Raw.top_processes.
  rewrite Hps, Hcount. cbn [mbind result_bind bind].
  rewrite (raw_rank_keyed Raw.entry_cpu Raw.cpu_key).
  2:{ eapply Forall_impl; [exact Hcpu|].
      by intros x [c Hc]; unfold Raw.cpu_key; rewrite Hc. }
  cbn [mbind result_bind bind]. rewrite raw_normalize_Ok; [| |done].
  2:{ apply Forall_forall. intros x Hx%rank_elem_of.
      by apply (proj1 (Forall_forall _ _) Hcpu). }
  cbn [mbind result_bind bind].
  rewrite (raw_rank_keyed _ Raw.entry_memory); [done|].
  by apply Forall_forall.
Qed.

Lemma raw_update_system_info_pushed m s :
  1 ≤ length (cpu_usage_history s) → 1 ≤ length (memory_usage_history s) →
  Raw.update_system_info m s
  = seq_method (Raw.update_system_info_label m) (Raw.update_process_info m)
      (Raw.pushed m s).
Proof.
  intros Hc Hm.
  pose proof (push_drop _ (Raw.cpu_percent m) Hc) as Hpc.
  pose proof (push_drop _ (Raw.virtual_memory_percent m) Hm) as Hpm.
  unfold Raw.update_system_info. unfold seq_method at 1.
  rewrite (push_cpu_ok _ _ _ Hpc). unfold seq_method at 1.
  by rewrite (push_memory_ok _ (set_cpu_usage_history _ s) _ Hpm).
Qed.

Lemma raw_tick_returns m s u :
  (Raw.update_system_info m s).2 = Ok u →
  ∃ lists, Raw.top_processes m = Ok lists.
Proof.
  unfold Raw.update_system_info, seq_method.
  destruct (push_cpu _ s) as [s1 [[]|e1]]; [|done].
  destruct (push_memory _ s1) as [s2 [[]|e2]]; [|done].
  destruct (Raw.update_system_info_label m s2) as [s3 [[]|e3]]; [|done].
  unfold Raw.update_process_info.
  destruct (Raw.top_processes m) as [lists|e4]; [by eexists | done].
Qed.

(** C1, as the code has it.  [memory_info()] is called inside the list
    comprehension and nothing on the path of the tick handles an
    exception.  When the call fails for a process that is not named
    "System Idle Process", the ranking raises, [update_process_info]
    leaves every label as it was and the tick does not return.  When the
    call succeeds for every such process, each of them reports a CPU
    percent and the core count is an int other than zero, both lists are
    produced, ranked from the entries of all of them, and
    [update_process_info] returns; the tick returns when also the CPU
    frequency query of the label refresh does not fail.  Only a process
    named "System Idle Process" is passed over. *)
Theorem failed_fetch_aborts_tick (m : Raw.metrics) :
  (∀ p e, p ∈ Raw.process_iter m → Raw.not_idle p →
     Raw.memory_info_rss p = Raise e →
     ∃ e', Raw.top_processes m = Raise e'
       ∧ (∀ s, Raw.update_process_info m s = (s, Raise e'))
       ∧ (∀ s, is_ok (Raw.update_system_info m s).2 = false))
  ∧ (∀ n,
       (∀ p, p ∈ Raw.process_iter m → Raw.not_idle p →
          is_ok (Raw.memory_info_rss p) = true
          ∧ is_Some (Raw.info_cpu_percent p)) →
       Raw.cpu_count m = Some n → n ≠ 0%Z →
       ∃ processes,
         Forall2 Raw.fetched (filter Raw.not_idle (Raw.process_iter m))
           processes
         ∧ Raw.top_processes m
           = Ok (Raw.normalized n <$> rank Raw.cpu_key processes 5,
                 rank Raw.entry_memory processes 5)
         ∧ (∀ s, (Raw.update_process_info m s).2 = Ok ())
         ∧ (∀ s, 1 ≤ length (cpu_usage_history s) →
              1 ≤ length (memory_usage_history s) →
              is_ok (Raw.local_cpu_name m) = true →
              (Raw.update_system_info m s).2 = Ok ())).
Proof.
  split.
  - intros p e Hin Hp He.
    destruct (raw_processes_of_Raise _ p e Hin Hp He) as [e' He'].
    assert (Raw.top_processes m = Raise e') as Htop
      by (unfold Raw.top_processes; by rewrite He').
    exists e'. split; [done|]. split.
    + intros s. unfold Raw.update_process_info. by rewrite Htop.
    + intros s. destruct (Raw.update_system_info m s).2 as [u|e''] eqn:Htick;
        [|done].
      apply raw_tick_returns in Htick as [lists Hlists]. congruence.
  - intros n Hok Hcount Hn.
    assert (∃ processes, Raw.processes_of (Raw.process_iter m) = Ok processes)
      as [processes Hps].
    { induction (Raw.process_iter m) as [|p ps IH]; [by eexists|].
      destruct IH as [rest Hrest].
      { intros q Hq. apply Hok. by right. }
      cbn [Raw.processes_of]. case_bool_decide as Hp; [|by eexists].
      destruct (Hok p (list_elem_of_here _ _) Hp) as [Hrss _].
      destruct (Raw.memory_info_rss p); [|done].
      cbn [mbind result_bind bind]. rewrite Hrest. by eexists. }
    pose proof (proj1 (raw_processes_of_Ok _ _) Hps) as Hfetched.
    assert (Forall (λ x, is_Some (Raw.entry_cpu x)) processes) as Hcpu.
    { apply Forall_forall. intros x [i Hi]%list_elem_of_lookup.
      destruct (Forall2_lookup_r _ _ _ _ _ Hfetched Hi)
        as (p & Hpi & rss & _ & ->).
      apply list_elem_of_lookup_2, list_elem_of_filter in Hpi as [Hp Hin].
      by apply Hok. }
    pose proof (raw_top_processes_present m processes n Hps Hcpu Hcount Hn)
      as Htop.
    exists processes. split; [done|]. split; [done|].
    assert (∀ s, (Raw.update_process_info m s).2 = Ok ()) as Hreturns.
    { intros s. unfold Raw.update_process_info. by rewrite Htop. }
    split; [done|].
    intros s Hc Hm Hlabel. rewrite raw_update_system_info_pushed by done.
    unfold seq_method, Raw.update_system_info_label.
    destruct (Raw.local_cpu_name m); [|done]. apply Hreturns.
Qed.

Lemma failed_fetch_aborts_tick_witness :
  (∃ e', Raw.top_processes (metrics_to_raw 2400 exited_tick) = Raise e'
     ∧ (∀ s, Raw.update_process_info (metrics_to_raw 2400 exited_tick) s
             = (s, Raise e'))
     ∧ (∀ s, is_ok (Raw.update_system_info
                      (metrics_to_raw 2400 exited_tick) s).2 = false))
  ∧ (Raw.update_system_info (metrics_to_raw 2400 busy_tick) started).2
    = Ok ().
Proof.
  split.
  - apply (proj1 (failed_fetch_aborts_tick (metrics_to_raw 2400 exited_tick))
             (Raw.Build_process (Some "gone") (Some 10%Q)
                (Raise NoSuchProcess)) NoSuchProcess).
    + right. left.
    + vm_compute. discriminate.
    + reflexivity.
  - destruct (proj2 (failed_fetch_aborts_tick (metrics_to_raw 2400 busy_tick))
                4%Z) as (processes & _ & _ & _ & Hreturns).
    + intros p Hp _. cbn in Hp. rewrite !elem_of_cons in Hp.
      destruct Hp as [-> | [-> | [-> | Hp]]]; [by split; eauto..|by inv Hp].
    + reflexivity.
    + discriminate.
    + apply Hreturns; [cbn; lia | cbn; lia | reflexivity].
Defined.

(** C8, as the code has it.  On a tick whose snapshot is built, whose
    entries all carry a CPU percent and whose core count is a positive
    int, the ranker runs twice.  The CPU list is the five entries of
    largest raw CPU percent, in the order of the raw values, each value
    then divided by the core count: the values shown are those quotients
    and they are in descending order.  The memory list is the five entries
    of largest memory, with the CPU value as the process reported it. *)
Theorem cpu_list_divided_after_ranking (m : Raw.metrics)
    (processes : list Raw.entry) (n : Z) :
  Raw.processes_of (Raw.process_iter m) = Ok processes →
  Forall (λ x, is_Some (Raw.entry_cpu x)) processes →
  Raw.cpu_count m = Some n → (0 < n)%Z →
  Raw.top_processes m
  = Ok (Raw.normalized n <$> rank Raw.cpu_key processes 5,
        rank Raw.entry_memory processes 5)
  ∧ (∀ x, x ∈ rank Raw.cpu_key processes 5 →
       ∃ c, Raw.entry_cpu x = Some c
         ∧ Raw.normalized n x
           = (Raw.entry_name x, round64 (c / inject_Z n), Raw.entry_memory x))
  ∧ StronglySorted (λ x y, Raw.shown_cpu y <= Raw.shown_cpu x)%Q
      (Raw.normalized n <$> rank Raw.cpu_key processes 5)
  ∧ (∀ x, x ∈ rank Raw.entry_memory processes 5 →
       ∃ p rss, p ∈ Raw.process_iter m ∧ Raw.memory_info_rss p = Ok rss
         ∧ x = (Raw.info_name p, Raw.info_cpu_percent p,
                int_truediv rss (1024 ^ 2))).
Proof.
  intros Hps Hcpu Hcount Hn.
  split; [apply raw_top_processes_present; [done..|lia]|]. split; [|split].
  - intros x Hx%rank_elem_of.
    destruct (proj1 (Forall_forall _ _) Hcpu x Hx) as [c Hc].
    exists c. split; [done|]. unfold Raw.normalized, Raw.cpu_key.
    by rewrite Hc.
  - apply (StronglySorted_fmap _ (key_ge Raw.cpu_key));
      [|apply rank_descending].
    intros x y Hxy. by apply round64_div_mono.
  - intros x Hx%rank_elem_of. apply raw_processes_of_Ok in Hps.
    apply list_elem_of_lookup in Hx as [i Hi].
    destruct (Forall2_lookup_r _ _ _ _ _ Hps Hi) as (p & Hp & rss & Hrss & ->).
    apply list_elem_of_lookup_2, list_elem_of_filter in Hp as [_ Hp].
    by exists p, rss.
Qed.

Lemma cpu_list_divided_after_ranking_witness :
  Raw.top_processes (metrics_to_raw 2400 busy_tick)
  = Ok (Raw.normalized 4 <$> rank Raw.cpu_key busy_tick_raw_processes 5,
        rank Raw.entry_memory busy_tick_raw_processes 5)
  ∧ Raw.cpu_text
    <$> (Raw.normalized 4 <$> rank Raw.cpu_key busy_tick_raw_processes 5)
    = ["chrome: CPU 30.00%"; "python: CPU 12.50%"].
Proof.
  split; [|vm_compute; reflexivity].
  apply (cpu_list_divided_after_ranking (metrics_to_raw 2400 busy_tick)
           busy_tick_raw_processes 4).
  - reflexivity.
  - repeat constructor; by eexists.
  - reflexivity.
  - lia.
Defined.

(** C8, as the claim has it, fails.  Not every tick ranks: when the
    second process has exited, the enumeration raises and no list is
    ranked.  And the order of the CPU list is that of the raw values, not
    that of the quotients: the raw values of A and B differ, their
    quotients by three are the same float, the program lists B before A,
    and ranking the quotients would list A before B. *)
Lemma ranking_not_on_every_tick :
  top_processes exited_tick = Raise NoSuchProcess
  ∧ Raw.top_processes (metrics_to_raw 2400 exited_tick) = Raise NoSuchProcess
  ∧ entry_name <$> (normalized 3 <$> rank entry_cpu close_snapshot 5)
    = ["B"; "A"]
  ∧ entry_name <$> rank entry_cpu (normalized 3 <$> close_snapshot) 5
    = ["A"; "B"]
  ∧ normalized 3 <$> rank entry_cpu close_snapshot 5
    ≠ rank entry_cpu (normalized 3 <$> close_snapshot) 5.
Proof.
  split; [reflexivity|]. split; [reflexivity|].
  assert (entry_name <$> (normalized 3 <$> rank entry_cpu close_snapshot 5)
          = ["B"; "A"]) as H1 by (vm_compute; reflexivity).
  assert (entry_name <$> rank entry_cpu (normalized 3 <$> close_snapshot) 5
          = ["A"; "B"]) as H2 by (vm_compute; reflexivity).
  split; [done|]. split; [done|].
  intros Heq. rewrite Heq, H2 in H1. discriminate H1.
Qed.

(** X1. On non-empty history arrays a tick raises exactly when the label
    refresh raises, or the label refresh returns and the ranking raises.
    In the first case the two samples are stored and no label is
    written; in the second the samples and the system label are stored
    and the process labels are as before the tick. *)
Theorem tick_raises_with_label_or_ranking (m : Raw.metrics)
    (s : SystemMonitorApp) (e : exn) :
  1 ≤ length (cpu_usage_history s) → 1 ≤ length (memory_usage_history s) →
  ((Raw.update_system_info m s).2 = Raise e
   ↔ Raw.local_cpu_name m = Raise e
     ∨ (is_ok (Raw.local_cpu_name m) = true ∧ Raw.top_processes m = Raise e))
  ∧ (Raw.local_cpu_name m = Raise e →
     (Raw.update_system_info m s).1 = Raw.pushed m s)
  ∧ (is_ok (Raw.local_cpu_name m) = true → Raw.top_processes m = Raise e →
     (Raw.update_system_info m s).1 = Raw.sampled m s).
Proof.
  intros Hc Hm. rewrite raw_update_system_info_pushed by done.
  unfold seq_method, Raw.update_system_info_label, Raw.update_process_info.
  destruct (Raw.local_cpu_name m) as [name|e1]; cbn [fst snd is_ok].
  - destruct (Raw.top_processes m) as [[tc tm]|e2]; cbn [fst snd].
    + split; [|done]. split; [done|]. intros [? | [_ ?]]; done.
    + split; [|done]. split; [intros [= <-]; by right|].
      by intros [? | [_ [= <-]]].
  - split; [|done]. split; [intros [= <-]; by left|].
    by intros [[= <-] | [? _]].
Qed.

Lemma tick_raises_with_label_or_ranking_witness :
  (Raw.update_system_info no_freq_tick started).2 = Raise AttributeError
  ∧ (Raw.update_system_info no_freq_tick started).1
    = Raw.pushed no_freq_tick started.
Proof.
  assert (1 ≤ length (cpu_usage_history started)) as Hc by (cbn; lia).
  assert (1 ≤ length (memory_usage_history started)) as Hm by (cbn; lia).
  destruct (tick_raises_with_label_or_ranking no_freq_tick started
              AttributeError Hc Hm) as (Hiff & Hlabel & _).
  split; [apply Hiff; by left | by apply Hlabel].
Defined.

(** *** Agreement of the two descriptions *)

Lemma processes_of_to_raw ps :
  Raw.processes_of (process_to_raw <$> ps)
  = match processes_of ps with
    | Ok es => Ok (entry_to_raw <$> es)
    | Raise e => Raise e
    end.
Proof.
  induction ps as [|p ps IH]; [done|].
  cbn [fmap list_fmap Raw.processes_of processes_of].
  change (list_fmap _ _ process_to_raw ps) with (process_to_raw <$> ps).
  rewrite IH. cbn [process_to_raw Raw.info_name Raw.memory_info_rss
                   Raw.info_cpu_percent].
  assert (bool_decide (Some (info_name p) ≠ Some idle_name)
          = bool_decide (info_name p ≠ idle_name)) as ->
    by (apply bool_decide_ext; split; intros Hne Heq; apply Hne; congruence).
  case_bool_decide; [|done].
  destruct (memory_info_rss p); [|done].
  cbn [mbind result_bind bind]. by destruct (processes_of ps).
Qed.

Lemma normalize_to_raw n top :
  Raw.normalize (Some n) (entry_to_raw <$> top)
  = match normalize n top with
    | Ok top' => Ok (entry_to_shown <$> top')
    | Raise e => Raise e
    end.
Proof.
  induction top as [|[[name cpu] memory] top IH]; [done|].
  cbn [fmap list_fmap entry_to_raw Raw.normalize normalize Raw.truediv
       entry_name entry_cpu entry_memory fst snd].
  change (list_fmap _ _ entry_to_raw top) with (entry_to_raw <$> top).
  rewrite IH. destruct (truediv cpu n); [|done].
  cbn [mbind result_bind bind]. by destruct (normalize n top).
Qed.

(** On answers in which every attribute is present, the two
    descriptions of the ranking give the same lists. *)
Lemma top_processes_to_raw current m :
  Raw.top_processes (metrics_to_raw current m)
  = match top_processes m with
    | Ok (tc, tm) => Ok (entry_to_shown <$> tc, entry_to_raw <$> tm)
    | Raise e => Raise e
    end.
Proof.
  unfold Raw.top_processes, top_processes.
  cbn [metrics_to_raw Raw.process_iter Raw.cpu_count].
  rewrite processes_of_to_raw.
  destruct (processes_of (process_iter m)) as [processes|e];
    cbn [mbind result_bind bind]; [|done].
  rewrite (raw_rank_keyed Raw.entry_cpu Raw.cpu_key)
    by (apply Forall_fmap, Forall_forall; by intros [[??]?]).
  cbn [mbind result_bind bind].
  rewrite (rank_fmap entry_cpu Raw.cpu_key entry_to_raw) by done.
  rewrite normalize_to_raw.
  destruct (normalize (cpu_count m) (rank entry_cpu processes 5)) as [tc|e];
    cbn [mbind result_bind bind]; [|done].
  rewrite (raw_rank_keyed _ Raw.entry_memory) by (by apply Forall_forall).
  cbn [mbind result_bind bind].
  by rewrite (rank_fmap entry_memory Raw.entry_memory entry_to_raw).
Qed.

Lemma show_ranked_to_raw {A : Type} (convert : entry → A) (text : A → string)
    (text' : entry → string) i top labels :
  (∀ x, text (convert x) = text' x) →
  Raw.show_ranked text i (convert <$> top) labels
  = show_ranked text' i top labels.
Proof.
  intros Htext. revert i labels.
  induction top as [|x top IH]; intros i labels; [done|].
  cbn [fmap list_fmap Raw.show_ranked show_ranked].
  rewrite Htext. apply IH.
Qed.

(** And the two descriptions of the tick leave the same fields and the
    same result. *)
Lemma update_system_info_to_raw current m s :
  Raw.update_system_info (metrics_to_raw current m) s
  = update_system_info m s.
Proof.
  unfold Raw.update_system_info, update_system_info, seq_method.
  cbn [metrics_to_raw Raw.cpu_percent Raw.virtual_memory_percent].
  destruct (push_cpu (cpu_percent m) s) as [s1 [[]|e1]]; [|done].
  destruct (push_memory (virtual_memory_percent m) s1) as [s2 [[]|e2]];
    [|done].
  cbn [Raw.update_system_info_label Raw.local_cpu_name metrics_to_raw
       Raw.has_cpu_freq Raw.cpu_freq mbind result_bind bind
       update_system_info_label Raw.virtual_memory_total].
  unfold Raw.update_process_info, update_process_info.
  rewrite top_processes_to_raw.
  destruct (top_processes m) as [[tc tm]|e]; [|done].
  rewrite (show_ranked_to_raw entry_to_shown Raw.cpu_text cpu_text)
    by (by intros [[??]?]).
  by rewrite (show_ranked_to_raw entry_to_raw Raw.memory_text memory_text)
    by (by intros [[??]?]).
Qed.
